(** * Madad map client: session and vendor-query core of [src/App.jsx]

    A shallow embedding of the [App] and [AuthScreen] components: their
    React state, the browser's [localStorage], the requests in flight and
    the handlers and effects that read and write them.  One synchronous run
    of JavaScript (an event handler, or the continuation of an awaited
    request) is one transition of the model. *)

From Stdlib Require Import ZArith Floats Bool Ascii.
From stdpp Require Import gmap strings list.

Set Warnings "-inexact-float,-register-all".
Local Open Scope string_scope.

(** ** JavaScript values *)

(** The values the code handles: what [JSON.parse] and [res.json()]
    produce, plus [undefined].  Strings are byte strings (the UTF-8 form of
    the JavaScript string); numbers are binary64 floats. *)
Inductive JSValue : Type :=
| JUndefined
| JNull
| JBool (b : bool)
| JNum (x : float)
| JStr (s : string)
| JArr (items : list JSValue)
| JObj (fields : list (string * JSValue)).

(** What a [try] block can catch. *)
Inductive Exn : Type :=
| Error (message : string)
| SyntaxError (message : string)
| TypeError (message : string).

Definition message (e : Exn) : string :=
  match e with
  | Error m | SyntaxError m | TypeError m => m
  end.

(** ToBoolean. *)
Definition truthy (v : JSValue) : bool :=
  match v with
  | JUndefined | JNull => false
  | JBool b => b
  | JNum x => negb (PrimFloat.is_zero x || PrimFloat.is_nan x)
  | JStr s => negb (String.eqb s "")
  | JArr _ | JObj _ => true
  end.

(** [a || b]. *)
Definition js_or (a b : JSValue) : JSValue := if truthy a then a else b.

(** Own property of an object literal; an absent key reads [undefined]. *)
Fixpoint field (k : string) (fields : list (string * JSValue)) : JSValue :=
  match fields with
  | [] => JUndefined
  | (k', v) :: rest => if String.eqb k k' then v else field k rest
  end.

(** Object.is (SameValue) for the dependency arrays of [useEffect].  An
    object or array handed to a state setter by this program is always a
    freshly built one, hence never the same reference as the old state. *)
Definition same_value (a b : JSValue) : bool :=
  match a, b with
  | JUndefined, JUndefined | JNull, JNull => true
  | JBool x, JBool y => Bool.eqb x y
  | JNum x, JNum y => PrimFloat.Leibniz.eqb x y
  | JStr x, JStr y => String.eqb x y
  | _, _ => false
  end.

(** ** The platform

    What the code calls and the repository does not define: the configured
    backend URL ([VITE_BACKEND_URL], or the empty string), the engine's
    number-to-string conversion, [JSON.parse] (left: the message of the
    [SyntaxError] it throws), [JSON.stringify] ([None]: it returns
    [undefined]) and the message of the [TypeError] raised by reading a
    property of [null] or [undefined]. *)
Class Platform : Type := {
  backend : string;
  Number_toString : float -> string;
  JSON_parse : string -> string + JSValue;
  JSON_stringify : JSValue -> option string;
  TypeError_message : JSValue -> string -> string
}.

(** ** Network *)

(** The body of a response as [res.json()] delivers it: the parsed value,
    or a rejection with the engine's [SyntaxError]. *)
Inductive Body : Type :=
| Parsed (data : JSValue)
| Malformed (message : string).

Record Response : Type := { status : Z; body : Body }.

(** [res.ok]: the status is in the range 200-299. *)
Definition ok (res : Response) : bool :=
  (200 <=? status res)%Z && (status res <=? 299)%Z.

(** How an awaited [fetch] settles: the promise rejects (no connection, a
    transport time-out, ...) or resolves to a response. *)
Inductive FetchResult : Type :=
| Rejected (message : string)
| Responded (res : Response).

(** A request as [fetch] receives it. *)
Inductive Request : Type :=
| GET_me (url : string) (authorization : string)
| GET_nearby (url : string) (params : list (string * string))
| POST_auth (url : string) (body : option string).

(** ** Component state *)

Inductive Mode : Type := login | register.

(** [useState] cells of [AuthScreen]. *)
Record AuthScreen : Type := {
  mode : Mode;
  phone : string;
  email : string;
  name : string;
  password : string;
  auth_loading : bool;
  auth_error : string
}.

(** [useState] cells of [App]. *)
Record App : Type := {
  position : option (float * float);
  vendors : JSValue;
  serviceType : string;
  loading : bool;
  error : string;
  token : JSValue;
  user : JSValue;
  showAuthGate : bool
}.

(** What a request in flight does when it settles: the rest of the async
    function that awaits it.  [AfterAuth] remembers which mounted instance
    of [AuthScreen] submitted the form. *)
Inductive Pending : Type :=
| AfterMe
| AfterNearby
| AfterAuth (instance : nat).

Record World : Type := {
  app : App;
  authScreen : AuthScreen;
  authInstance : nat;
  localStorage : gmap string string;
  inflight : gmap nat (Request * Pending);
  issued : nat;
  crashed : option Exn
}.

Definition initialAuthScreen : AuthScreen :=
  {| mode := login; phone := ""; email := ""; name := ""; password := "";
     auth_loading := false; auth_error := "" |}.

Definition initialApp : App :=
  {| position := None; vendors := JArr []; serviceType := ""; loading := false;
     error := ""; token := JNull; user := JNull; showAuthGate := true |}.

(** The page just loaded over a given [localStorage], before any effect. *)
Definition initialWorld (store : gmap string string) : World :=
  {| app := initialApp; authScreen := initialAuthScreen; authInstance := 0;
     localStorage := store; inflight := ∅; issued := 0; crashed := None |}.

(** *** State setters *)

Definition with_app (f : App -> App) (w : World) : World :=
  {| app := f (app w); authScreen := authScreen w; authInstance := authInstance w;
     localStorage := localStorage w; inflight := inflight w; issued := issued w;
     crashed := crashed w |}.

Definition setPosition (p : option (float * float)) : World -> World :=
  with_app (fun a =>
    {| position := p; vendors := vendors a; serviceType := serviceType a;
       loading := loading a; error := error a; token := token a; user := user a;
       showAuthGate := showAuthGate a |}).

Definition setVendors (v : JSValue) : World -> World :=
  with_app (fun a =>
    {| position := position a; vendors := v; serviceType := serviceType a;
       loading := loading a; error := error a; token := token a; user := user a;
       showAuthGate := showAuthGate a |}).

Definition setServiceType (k : string) : World -> World :=
  with_app (fun a =>
    {| position := position a; vendors := vendors a; serviceType := k;
       loading := loading a; error := error a; token := token a; user := user a;
       showAuthGate := showAuthGate a |}).

Definition setLoading (b : bool) : World -> World :=
  with_app (fun a =>
    {| position := position a; vendors := vendors a; serviceType := serviceType a;
       loading := b; error := error a; token := token a; user := user a;
       showAuthGate := showAuthGate a |}).

Definition setError (m : string) : World -> World :=
  with_app (fun a =>
    {| position := position a; vendors := vendors a; serviceType := serviceType a;
       loading := loading a; error := m; token := token a; user := user a;
       showAuthGate := showAuthGate a |}).

Definition setToken (t : JSValue) : World -> World :=
  with_app (fun a =>
    {| position := position a; vendors := vendors a; serviceType := serviceType a;
       loading := loading a; error := error a; token := t; user := user a;
       showAuthGate := showAuthGate a |}).

Definition setUser (u : JSValue) : World -> World :=
  with_app (fun a =>
    {| position := position a; vendors := vendors a; serviceType := serviceType a;
       loading := loading a; error := error a; token := token a; user := u;
       showAuthGate := showAuthGate a |}).

Definition setShowAuthGate (b : bool) : World -> World :=
  with_app (fun a =>
    {| position := position a; vendors := vendors a; serviceType := serviceType a;
       loading := loading a; error := error a; token := token a; user := user a;
       showAuthGate := b |}).

Definition with_authScreen (f : AuthScreen -> AuthScreen) (w : World) : World :=
  {| app := app w; authScreen := f (authScreen w); authInstance := authInstance w;
     localStorage := localStorage w; inflight := inflight w; issued := issued w;
     crashed := crashed w |}.

Definition with_localStorage (f : gmap string string -> gmap string string)
    (w : World) : World :=
  {| app := app w; authScreen := authScreen w; authInstance := authInstance w;
     localStorage := f (localStorage w); inflight := inflight w; issued := issued w;
     crashed := crashed w |}.

(** [localStorage.getItem] and [removeItem]; [setItem] comes with the
    handlers, because it converts its argument to a string. *)
Definition getItem (k : string) (w : World) : option string := localStorage w !! k.

Definition removeItem (k : string) : World -> World := with_localStorage (delete k).

(** [fetch(...)] is called: the request joins the ones in flight under the
    next issue number. *)
Definition send (r : Request) (k : Pending) (w : World) : World :=
  {| app := app w; authScreen := authScreen w; authInstance := authInstance w;
     localStorage := localStorage w;
     inflight := <[issued w := (r, k)]> (inflight w);
     issued := S (issued w); crashed := crashed w |}.

(** The awaited promise settles: the request leaves the ones in flight. *)
Definition settle (id : nat) (w : World) : World :=
  {| app := app w; authScreen := authScreen w; authInstance := authInstance w;
     localStorage := localStorage w; inflight := delete id (inflight w);
     issued := issued w; crashed := crashed w |}.

(** An exception escapes an effect or a render: React unmounts the tree. *)
Definition crash (e : Exn) (w : World) : World :=
  {| app := app w; authScreen := authScreen w; authInstance := authInstance w;
     localStorage := localStorage w; inflight := inflight w; issued := issued w;
     crashed := Some e |}.

(** *** The [AuthScreen] instance

    [AuthScreen] is rendered only while [showAuthGate] holds; each time the
    login gate comes up a new instance is mounted with fresh state.  A setter
    called by a continuation of an instance that is no longer mounted does
    nothing. *)
Definition mounted (instance : nat) (w : World) : bool :=
  showAuthGate (app w) && Nat.eqb instance (authInstance w).

Definition auth_setLoading (instance : nat) (b : bool) (w : World) : World :=
  if mounted instance w then
    with_authScreen (fun s =>
      {| mode := mode s; phone := phone s; email := email s; name := name s;
         password := password s; auth_loading := b; auth_error := auth_error s |}) w
  else w.

Definition auth_setError (instance : nat) (m : string) (w : World) : World :=
  if mounted instance w then
    with_authScreen (fun s =>
      {| mode := mode s; phone := phone s; email := email s; name := name s;
         password := password s; auth_loading := auth_loading s; auth_error := m |}) w
  else w.

Definition setMode (m : Mode) : World -> World :=
  with_authScreen (fun s =>
    {| mode := m; phone := phone s; email := email s; name := name s;
       password := password s; auth_loading := auth_loading s;
       auth_error := auth_error s |}).

Definition setPhone (v : string) : World -> World :=
  with_authScreen (fun s =>
    {| mode := mode s; phone := v; email := email s; name := name s;
       password := password s; auth_loading := auth_loading s;
       auth_error := auth_error s |}).

Definition setEmail (v : string) : World -> World :=
  with_authScreen (fun s =>
    {| mode := mode s; phone := phone s; email := v; name := name s;
       password := password s; auth_loading := auth_loading s;
       auth_error := auth_error s |}).

Definition setName (v : string) : World -> World :=
  with_authScreen (fun s =>
    {| mode := mode s; phone := phone s; email := email s; name := v;
       password := password s; auth_loading := auth_loading s;
       auth_error := auth_error s |}).

Definition setPassword (v : string) : World -> World :=
  with_authScreen (fun s =>
    {| mode := mode s; phone := phone s; email := email s; name := name s;
       password := v; auth_loading := auth_loading s; auth_error := auth_error s |}).

(** The login gate comes up: a new [AuthScreen] instance with initial state. *)
Definition mountAuthScreen (w : World) : World :=
  {| app := app w; authScreen := initialAuthScreen; authInstance := S (authInstance w);
     localStorage := localStorage w; inflight := inflight w; issued := issued w;
     crashed := crashed w |}.

(** [s.length]: UTF-16 code units of a string held in UTF-8. *)
Fixpoint length16 (s : string) : nat :=
  match s with
  | EmptyString => 0
  | String c rest =>
      let n := Ascii.nat_of_ascii c in
      ((if n <? 128 then 1 else if n <? 192 then 0 else if n <? 240 then 1 else 2)
       + length16 rest)%nat
  end.

(** [const serviceKeys = Object.keys(serviceLabels)] *)
Definition serviceKeys : list string :=
  ["tow_truck"; "mechanic"; "hotel"; "medical"; "car_wash"; "electrician"; "plumber"].

(** [const center = useMemo(() => position || [24.8607, 67.0011], [position])]:
    where the map is centred. *)
Definition center (w : World) : float * float :=
  match position (app w) with
  | Some p => p
  | None => (24.8607%float, 67.0011%float)
  end.

(** Whether a value is present; whether a [try] block ran to its end. *)
Definition is_some {A : Type} (o : option A) : bool :=
  match o with Some _ => true | None => false end.

Definition returned {E A : Type} (r : E + A) : bool :=
  match r with inr _ => true | inl _ => false end.

(** The category chips rendered: "All" and one per service key. *)
Definition chip (k : string) : bool :=
  String.eqb k "" || existsb (String.eqb k) serviceKeys.

(** ** Handlers and effects *)
Section Model.

Context {platform : Platform}.

(** ToString, as applied by [String(x)], template literals, [new Error(x)]
    and [localStorage.setItem]. *)
Fixpoint ToString (v : JSValue) : string :=
  match v with
  | JUndefined => "undefined"
  | JNull => "null"
  | JBool true => "true"
  | JBool false => "false"
  | JNum x => Number_toString x
  | JStr s => s
  | JArr items =>
      (fix join (l : list JSValue) : string :=
         match l with
         | [] => ""
         | x :: rest =>
             (match x with JUndefined | JNull => "" | _ => ToString x end)
             ++ (match rest with [] => "" | _ => "," ++ join rest end)
         end) items
  | JObj _ => "[object Object]"
  end.

(** [v.k], for the property names this program reads ([vendors], [detail],
    [access_token], [user], [id], [location], [coordinates]): none is a
    built-in member of a string, number, boolean or array, so on those the
    read gives [undefined]. *)
Definition get (v : JSValue) (k : string) : Exn + JSValue :=
  match v with
  | JUndefined | JNull => inl (TypeError (TypeError_message v k))
  | JObj fields => inr (field k fields)
  | _ => inr JUndefined
  end.

Definition setItem (k : string) (v : JSValue) : World -> World :=
  with_localStorage (<[k := ToString v]>).

(** *** Vendor query *)

(** The [URLSearchParams] of [fetchNearby]. *)
Definition nearbyParams (p : float * float) (category : string) : list (string * string) :=
  let params :=
    [("lat", ToString (JNum (fst p))); ("lng", ToString (JNum (snd p)));
     ("radius_km", "5")] in
  if truthy (JStr category) then params ++ [("service_type", category)] else params.

(** [fetchNearby], up to its first [await]. *)
Definition fetchNearby (w : World) : World :=
  match position (app w) with
  | None => w
  | Some p =>
      let w := setLoading true w in
      let w := setError "" w in
      send (GET_nearby (backend ++ "/api/vendors/nearby")
                       (nearbyParams p (serviceType (app w))))
           AfterNearby w
  end.

(** The [try] block of [fetchNearby] after the request settled: the value
    handed to [setVendors], or what is thrown. *)
Definition nearbyVendors (r : FetchResult) : Exn + JSValue :=
  match r with
  | Rejected m => inl (TypeError m)
  | Responded res =>
      if negb (ok res) then inl (Error "Failed to load")
      else match body res with
           | Malformed m => inl (SyntaxError m)
           | Parsed data =>
               match get data "vendors" with
               | inl e => inl e
               | inr v => inr (js_or v (JArr []))
               end
           end
  end.

(** [fetchNearby] from the settled request on: [try], [catch], [finally]. *)
Definition afterNearby (r : FetchResult) (w : World) : World :=
  let w :=
    match nearbyVendors r with
    | inr v => setVendors v w
    | inl _ => setError "Could not load nearby vendors" w
    end in
  setLoading false w.

(** *** Session *)

(** The restore effect.  An exception thrown by [JSON.parse] is not caught. *)
Definition restore (w : World) : World :=
  let t := getItem "madad_token" w in
  let u := getItem "madad_user" w in
  let w :=
    match t with
    | Some t => if truthy (JStr t) then setToken (JStr t) w else w
    | None => w
    end in
  let gate := negb (match t with Some t => truthy (JStr t) | None => false end) in
  match u with
  | Some u =>
      if truthy (JStr u) then
        match JSON_parse u with
        | inl m => crash (SyntaxError m) w
        | inr v => setShowAuthGate gate (setUser v w)
        end
      else setShowAuthGate gate w
  | None => setShowAuthGate gate w
  end.

(** The verify effect, up to its [await]. *)
Definition verify (w : World) : World :=
  if negb (truthy (token (app w))) then w
  else send (GET_me (backend ++ "/api/auth/me")
                    ("Bearer " ++ ToString (token (app w))))
            AfterMe w.

(** The [try] block of [verify] after the request settled. *)
Definition sessionValid (r : FetchResult) : Exn + unit :=
  match r with
  | Rejected m => inl (TypeError m)
  | Responded res => if negb (ok res) then inl (Error "session invalid") else inr tt
  end.

(** [verify] from the settled request on; the [catch] block logs out. *)
Definition afterMe (r : FetchResult) (w : World) : World :=
  match sessionValid r with
  | inr _ => w
  | inl _ =>
      let w := removeItem "madad_token" w in
      let w := removeItem "madad_user" w in
      let w := setToken JNull w in
      let w := setUser JNull w in
      setShowAuthGate true w
  end.

Definition handleAuthed (t u : JSValue) (w : World) : World :=
  let w := setToken t w in
  let w := setUser u w in
  setShowAuthGate false w.

Definition handleGuest (w : World) : World := setShowAuthGate false w.

Definition logout (w : World) : World :=
  let w := removeItem "madad_token" w in
  let w := removeItem "madad_user" w in
  let w := setToken JNull w in
  let w := setUser JNull w in
  setShowAuthGate true w.

(** *** Login and register form *)

Definition canSubmit (s : AuthScreen) : bool :=
  (6 <=? length16 (password s))%nat
  && truthy (js_or (JStr (phone s)) (JStr (email s))).

Definition endpoint (s : AuthScreen) : string :=
  match mode s with
  | register => "/api/auth/register"
  | login => "/api/auth/login"
  end.

Definition payload (s : AuthScreen) : JSValue :=
  match mode s with
  | register =>
      JObj [("name", js_or (JStr (name s)) JUndefined);
            ("phone", js_or (JStr (phone s)) JUndefined);
            ("email", js_or (JStr (email s)) JUndefined);
            ("password", JStr (password s))]
  | login =>
      JObj [("phone", js_or (JStr (phone s)) JUndefined);
            ("email", js_or (JStr (email s)) JUndefined);
            ("password", JStr (password s))]
  end.

(** [handleSubmit], up to its first [await]. *)
Definition handleSubmit (w : World) : World :=
  let s := authScreen w in
  if negb (canSubmit s) then w
  else
    let w := auth_setLoading (authInstance w) true w in
    let w := auth_setError (authInstance w) "" w in
    send (POST_auth (backend ++ endpoint s) (JSON_stringify (payload s)))
         (AfterAuth (authInstance w)) w.

(** The [try] block of [handleSubmit] after the request settled: the token
    and user read from the response, or what is thrown. *)
Definition credentials (r : FetchResult) : Exn + (JSValue * JSValue) :=
  match r with
  | Rejected m => inl (TypeError m)
  | Responded res =>
      if negb (ok res) then
        let msg :=
          match body res with
          | Parsed v => v
          | Malformed _ => JObj []
          end in
        match get msg "detail" with
        | inl e => inl e
        | inr detail =>
            inl (Error (ToString (js_or detail (JStr "Authentication failed"))))
        end
      else
        match body res with
        | Malformed m => inl (SyntaxError m)
        | Parsed data =>
            match get data "access_token" with
            | inl e => inl e
            | inr t =>
                match get data "user" with
                | inl e => inl e
                | inr u => inr (t, u)
                end
            end
        end
  end.

(** [handleSubmit] from the settled request on, for the instance of
    [AuthScreen] that submitted. *)
Definition afterAuth (instance : nat) (r : FetchResult) (w : World) : World :=
  let w :=
    match credentials r with
    | inr (t, u) =>
        let w := setItem "madad_token" t w in
        let w :=
          setItem "madad_user"
            (match JSON_stringify u with Some s => JStr s | None => JUndefined end) w in
        handleAuthed t u w
    | inl e => auth_setError instance (message e) w
    end in
  auth_setLoading instance false w.

(** *** Rendering and effects

    After a run of JavaScript React renders the batched state updates and
    then runs the effects whose dependencies changed: the verify effect
    (dependencies [token], [backend]) and the fetch effect (dependencies
    [position], [serviceType]).  [tokenSet] and [positionSet] say whether
    the run called [setToken] and [setPosition]; a position handed to
    [setPosition] is a new array, so it always counts as changed.  When the
    login gate comes up [AuthScreen] is mounted anew. *)
Definition effects (before : World) (tokenSet positionSet : bool) (w : World) : World :=
  let w :=
    if showAuthGate (app w) && negb (showAuthGate (app before))
    then mountAuthScreen w else w in
  let w :=
    if tokenSet && negb (same_value (token (app before)) (token (app w)))
    then verify w else w in
  if positionSet
     || negb (String.eqb (serviceType (app before)) (serviceType (app w)))
  then fetchNearby w else w.

(** *** The render of the vendors

    The one place where the render of [App] can throw is the list of
    markers, [vendors.map(v => <Marker key={v.id}
    position={[v.location.coordinates[1], v.location.coordinates[0]]}>...)]:
    everything else is read off a value that is known not to be [undefined]
    or [null].  What the map library then does with the elements is not
    part of this program. *)

(** [vendors.map(v => ...)]: the elements mapped over, or the TypeError
    thrown when [vendors] has no [map] to call.  Reading [map] of
    [undefined] or [null] throws; a string, number, boolean or parsed
    object has no callable [map] (the text is V8's). *)
Definition mapped (vendors : JSValue) : Exn + list JSValue :=
  match vendors with
  | JArr items => inr items
  | JUndefined | JNull => inl (TypeError (TypeError_message vendors "map"))
  | _ => inl (TypeError "vendors.map is not a function")
  end.

(** The marker of one vendor: its key [v.id], once [v.location.coordinates]
    has been read and indexed.  Reading a property of [undefined] or [null]
    throws.  The properties of the element are evaluated before its key
    (with the JSX runtime that needs no [React] in scope, the key is the
    last argument of the call), and the later reads ([v.name],
    [v.service_type], [v.address], [v.phone], [v.id]) are of [v] again,
    which is neither [undefined] nor [null] by then. *)
Definition marker (v : JSValue) : Exn + JSValue :=
  match get v "location" with
  | inl e => inl e
  | inr location =>
      match get location "coordinates" with
      | inl e => inl e
      | inr coordinates =>
          match coordinates with
          | JUndefined | JNull =>
              inl (TypeError (TypeError_message coordinates "1"))
          | _ => get v "id"
          end
      end
  end.

(** The callback is applied to the elements in order; the first exception
    ends the render. *)
Fixpoint markersOf (items : list JSValue) : Exn + list JSValue :=
  match items with
  | [] => inr []
  | v :: rest =>
      match marker v with
      | inl e => inl e
      | inr key =>
          match markersOf rest with
          | inl e => inl e
          | inr keys => inr (key :: keys)
          end
      end
  end.

Definition markers (vendors : JSValue) : Exn + list JSValue :=
  match mapped vendors with
  | inl e => inl e
  | inr items => markersOf items
  end.

(** React renders [App] with new vendors: an exception thrown by the
    render is caught by no error boundary, and React unmounts the tree. *)
Definition render (w : World) : World :=
  match markers (vendors (app w)) with
  | inl e => crash e w
  | inr _ => w
  end.

(** The first render and its effects, in source order: restore; verify
    (a no-op, its [token] is still [null]); the geolocation request;
    [fetchNearby] (a no-op, its [position] is still [null]).  Then the state
    set by restore is rendered and the effects that depend on it run. *)
Definition boot (store : gmap string string) : World :=
  let w0 := initialWorld store in
  let w := restore w0 in
  match crashed w with
  | Some _ => w
  | None => effects w0 true false w
  end.

(** What can happen after the first render.  [GeoFix] and [GeoDenied] are
    the callbacks of [getCurrentPosition]; [Settle] is an awaited request
    settling; the rest are the user's actions on what is rendered (the
    form's button is disabled while [loading], so it cannot be submitted
    then). *)
Inductive Event : Type :=
| GeoFix (latitude longitude : float)
| GeoDenied
| SelectCategory (k : string)
| ClickRefresh
| ClickSignIn
| ClickLogout
| ClickGuest
| ClickMode (m : Mode)
| TypePhone (v : string)
| TypeEmail (v : string)
| TypeName (v : string)
| TypePassword (v : string)
| Submit
| Settle (id : nat) (r : FetchResult).

(** One transition of the mounted page.  A handler or a continuation runs,
    React renders the new state and runs the effects.  Vendors that a
    query brought are rendered in the same transition; the other
    transitions leave the vendors, and with them the markers rendered
    before, as they are.  Once the tree is unmounted nothing is rendered
    and no state is left to set: the page is followed no further and the
    world stays as it is. *)
Definition step (e : Event) (w : World) : World :=
  if is_some (crashed w) then w
  else
    match e with
    | GeoFix latitude longitude =>
        effects w false true (setPosition (Some (latitude, longitude)) w)
    | GeoDenied => setError "Location permission denied" w
    | SelectCategory k =>
        if chip k then effects w false false (setServiceType k w) else w
    | ClickRefresh => fetchNearby w
    | ClickSignIn =>
        if truthy (user (app w)) then w
        else effects w false false (setShowAuthGate true w)
    | ClickLogout =>
        if truthy (user (app w)) then effects w true false (logout w) else w
    | ClickGuest =>
        if showAuthGate (app w) then effects w false false (handleGuest w) else w
    | ClickMode m => if showAuthGate (app w) then setMode m w else w
    | TypePhone v => if showAuthGate (app w) then setPhone v w else w
    | TypeEmail v => if showAuthGate (app w) then setEmail v w else w
    | TypeName v =>
        if showAuthGate (app w) then
          match mode (authScreen w) with register => setName v w | login => w end
        else w
    | TypePassword v => if showAuthGate (app w) then setPassword v w else w
    | Submit =>
        if showAuthGate (app w) && negb (auth_loading (authScreen w))
        then handleSubmit w else w
    | Settle id r =>
        match inflight w !! id with
        | None => w
        | Some (_, AfterMe) =>
            effects w (negb (returned (sessionValid r))) false (afterMe r (settle id w))
        | Some (_, AfterNearby) =>
            let w' := afterNearby r (settle id w) in
            if returned (nearbyVendors r) then render w' else w'
        | Some (_, AfterAuth instance) =>
            effects w (returned (credentials r)) false
                    (afterAuth instance r (settle id w))
        end
    end.

Definition run (events : list Event) (w : World) : World :=
  fold_left (fun w e => step e w) events w.

(** *** Notions the properties are stated with *)

(** The tree is mounted: no exception has escaped an effect or a render. *)
Definition live (w : World) : Prop := crashed w = None.

(** A request that fails: the promise rejects, or the response is not ok. *)
Definition failed (r : FetchResult) : Prop :=
  match r with
  | Rejected _ => True
  | Responded res => ok res = false
  end.

(** The session is gone from memory and from the store, and the login
    gate is shown. *)
Definition loggedOut (w : World) : Prop :=
  token (app w) = JNull /\ user (app w) = JNull /\ showAuthGate (app w) = true
  /\ localStorage w !! "madad_token" = None
  /\ localStorage w !! "madad_user" = None.



End Model.

(** ** An engine

    An executable instance of the platform, for running the model on
    concrete inputs: Number::toString, [JSON.parse] and
    [JSON.stringify] as ECMA-262 defines them, over UTF-8 strings.  The
    texts of the engine's error messages are not part of the standard; the
    ones here are stand-ins. *)
Module Engine.

(** [VITE_BACKEND_URL] is not set: [backend] is the empty string. *)
Definition backend : string := "".

Definition digit (d : Z) : ascii := ascii_of_N (Z.to_N (48 + d)).

(** The decimal digits of a natural number, most significant first. *)
Fixpoint digits_fuel (fuel : nat) (n : Z) (acc : string) : string :=
  match fuel with
  | O => acc
  | S fuel =>
      let acc := String (digit (n mod 10)) acc in
      if (n <? 10)%Z then acc else digits_fuel fuel (n / 10) acc
  end.

Definition digits (n : Z) : string := digits_fuel (S (Z.to_nat (Z.log2 n))) n "".

(** The binary64 nearest to [m * 10^e] for [0 <= m], with the given sign. *)
Definition decimal (negative : bool) (m e : Z) : float :=
  SF2Prim
    (if (m =? 0)%Z then S754_zero negative
     else if (0 <=? e)%Z then
       binary_normalize 53 1024 (if negative then - (m * 10 ^ e) else m * 10 ^ e) 0 false
     else SFdiv 53 1024 (S754_finite negative (Z.to_pos m) 0)
                        (S754_finite false (Z.to_pos (10 ^ (- e))) 0))%Z.

Local Open Scope Z_scope.

(** [num / den * 10^(-e)] as a fraction. *)
Definition scaled (num den e : Z) : Z * Z :=
  if 0 <=? e then (num, den * 10 ^ e) else (num * 10 ^ (- e), den).

(** The [n] with [10^(n-1) <= num/den < 10^n], searched upwards from [n]. *)
Fixpoint magnitude (fuel : nat) (num den n : Z) : Z :=
  match fuel with
  | O => n
  | S fuel =>
      let '(a, b) := scaled num den n in
      if a <? b then n else magnitude fuel num den (n + 1)
  end.

(** The decimals [s * 10^(n-k)] with [k] digits that convert to
    [x = num/den], for [n] one of [n0] and [n0 + 1] where [x] lies in
    [10^(n0-1), 10^n0): among the floor and the ceiling of [x / 10^(n-k)],
    those in [10^(k-1), 10^k) that convert back to [x].  Each comes with its
    distance to [x], in units of [10^(n0-k) / b]. *)
Definition candidates (x : float) (num den n0 k : Z) : list (Z * Z * Z) :=
  let '(a, b) := scaled num den (n0 - k) in
  let lo := a / b in
  let up := a / (10 * b) in
  filter (fun c : Z * Z * Z =>
            let '(s, n, _) := c in
            (10 ^ (k - 1) <=? s) && (s <? 10 ^ k)
            && PrimFloat.Leibniz.eqb (decimal false s (n - k)) x)
         [(lo, n0, a - lo * b); (lo + 1, n0, (lo + 1) * b - a);
          (up, n0 + 1, a - 10 * up * b); (up + 1, n0 + 1, 10 * (up + 1) * b - a)].

Definition closer (c d : Z * Z * Z) : Z * Z * Z :=
  let '(s, _, dist) := c in
  let '(s', _, dist') := d in
  if dist <? dist' then c
  else if dist' <? dist then d
  else if Z.even s then c else d.

(** Step 5 of Number::toString: the least [k], then the closest [s]. *)
Fixpoint shortest (fuel : nat) (x : float) (num den n0 k : Z) : Z * Z * Z :=
  match fuel with
  | O => (0, 0, 0)
  | S fuel =>
      match candidates x num den n0 k with
      | [] => shortest fuel x num den n0 (k + 1)
      | c :: cs => let '(s, n, _) := fold_left closer cs c in (s, n, k)
      end
  end.

Definition zeros (n : Z) : string :=
  String.string_of_list_ascii (repeat "0"%char (Z.to_nat n)).

(** Steps 6 to 10: the digits [ds] of [s] laid out by the exponent [n]. *)
Definition layout (ds : string) (n k : Z) : string :=
  let sign := if 0 <=? n - 1 then "+" else "-" in
  let exponent := (sign ++ digits (Z.abs (n - 1)))%string in
  let first (i : Z) := String.substring 0 (Z.to_nat i) ds in
  let rest (i : Z) := String.substring (Z.to_nat i) (Z.to_nat (k - i)) ds in
  if (k <=? n) && (n <=? 21) then (ds ++ zeros (n - k))%string
  else if (0 <? n) && (n <=? 21) then (first n ++ "." ++ rest n)%string
  else if (-6 <? n) && (n <=? 0) then ("0." ++ zeros (- n) ++ ds)%string
  else if k =? 1 then (ds ++ "e" ++ exponent)%string
  else (first 1 ++ "." ++ rest 1 ++ "e" ++ exponent)%string.

(** Number::toString in radix 10. *)
Definition Number_toString (x : float) : string :=
  match Prim2SF x with
  | S754_nan => "NaN"
  | S754_zero _ => "0"
  | S754_infinity false => "Infinity"
  | S754_infinity true => "-Infinity"
  | S754_finite negative m e =>
      let '(num, den) := if 0 <=? e then (Z.pos m * 2 ^ e, 1) else (Z.pos m, 2 ^ (- e)) in
      let bits := e + Z.log2 (Z.pos m) in
      let n0 := magnitude 8 num den (bits * 30103 / 100000 - 2) in
      let '(s, n, k) := shortest 17 (PrimFloat.abs x) num den n0 1 in
      let sign := if negative then "-" else "" in
      (sign ++ layout (digits s) n k)%string
  end.

(** *** [JSON.parse] *)

Local Open Scope N_scope.

Definition code (c : ascii) : N := N_of_ascii c.
Definition char (n : N) : ascii := ascii_of_N n.
Definition quote : string := String (char 34) "".

Definition whitespace (c : ascii) : bool :=
  let n := code c in (n =? 32) || (n =? 9) || (n =? 10) || (n =? 13).

Fixpoint skip (s : string) : string :=
  match s with
  | String c rest => if whitespace c then skip rest else s
  | EmptyString => s
  end.

(** [s] without the prefix [p], when it starts with it. *)
Fixpoint after (p s : string) : option string :=
  match p, s with
  | EmptyString, _ => Some s
  | String a p, String b s => if Ascii.eqb a b then after p s else None
  | _, EmptyString => None
  end.

Definition is_digit (c : ascii) : bool := (48 <=? code c) && (code c <=? 57).

(** The run of digits [s] starts with: its value after [acc], how many
    there are, and the rest. *)
Fixpoint take_digits (s : string) (acc : Z) (count : Z) : Z * Z * string :=
  match s with
  | String c rest =>
      if is_digit c
      then take_digits rest (10 * acc + Z.of_N (code c - 48))%Z (count + 1)%Z
      else (acc, count, s)
  | EmptyString => (acc, count, s)
  end.

(** A JSON number (after its sign): integer part, fraction, exponent. *)
Definition parse_number (negative : bool) (s : string) : option (JSValue * string) :=
  match s with
  | EmptyString => None
  | String c rest =>
      if negb (is_digit c) then None
      else
        let '(i, _, s) :=
          if code c =? 48 then (0%Z, 1%Z, rest) else take_digits s 0%Z 0%Z in
        let fraction :=
          match s with
          | String dot rest =>
              if code dot =? 46 then
                let '(m, places, s) := take_digits rest i 0%Z in
                if (places =? 0)%Z then None else Some (m, places, s)
              else Some (i, 0%Z, s)
          | EmptyString => Some (i, 0%Z, s)
          end in
        match fraction with
        | None => None
        | Some (m, places, s) =>
            let exponent :=
              match s with
              | String e rest =>
                  if (code e =? 101) || (code e =? 69) then
                    let '(minus, rest) :=
                      match rest with
                      | String sign rest' =>
                          if code sign =? 45 then (true, rest')
                          else if code sign =? 43 then (false, rest')
                          else (false, rest)
                      | EmptyString => (false, rest)
                      end in
                    let '(x, count, s) := take_digits rest 0%Z 0%Z in
                    if (count =? 0)%Z then None
                    else Some (if minus then (- x)%Z else x, s)
                  else Some (0%Z, s)
              | EmptyString => Some (0%Z, s)
              end in
            match exponent with
            | None => None
            | Some (x, s) =>
                let size := (Z.log2 m / 3 + 1)%Z in
                let e := Z.max (- (size + 400)) (Z.min 400 (x - places)) in
                Some (JNum (decimal negative m e), s)
            end
        end
  end.

Definition hex (c : ascii) : option N :=
  let n := code c in
  if (48 <=? n) && (n <=? 57) then Some (n - 48)
  else if (97 <=? n) && (n <=? 102) then Some (n - 87)
  else if (65 <=? n) && (n <=? 70) then Some (n - 55)
  else None.

Definition hex4 (s : string) : option (N * string) :=
  match s with
  | String a (String b (String c (String d rest))) =>
      match hex a, hex b, hex c, hex d with
      | Some a, Some b, Some c, Some d => Some (((a * 16 + b) * 16 + c) * 16 + d, rest)
      | _, _, _, _ => None
      end
  | _ => None
  end.

(** UTF-8 (for a lone surrogate: its generalised three-byte form). *)
Definition utf8 (cp : N) : string :=
  if cp <? 128 then String (char cp) ""
  else if cp <? 2048 then
    String (char (192 + cp / 64)) (String (char (128 + cp mod 64)) "")
  else if cp <? 65536 then
    String (char (224 + cp / 4096))
      (String (char (128 + (cp / 64) mod 64)) (String (char (128 + cp mod 64)) ""))
  else
    String (char (240 + cp / 262144))
      (String (char (128 + (cp / 4096) mod 64))
         (String (char (128 + (cp / 64) mod 64)) (String (char (128 + cp mod 64)) ""))).

(** After a backslash and [u]: one code unit, or a surrogate pair. *)
Definition unicode_escape (s : string) : option (string * string) :=
  match hex4 s with
  | None => None
  | Some (u, rest) =>
      let pair :=
        if (55296 <=? u) && (u <=? 56319) then
          match rest with
          | String b (String c low) =>
              if (code b =? 92) && (code c =? 117) then
                match hex4 low with
                | Some (l, rest) =>
                    if (56320 <=? l) && (l <=? 57343)
                    then Some (65536 + (u - 55296) * 1024 + (l - 56320), rest)
                    else None
                | None => None
                end
              else None
          | _ => None
          end
        else None in
      match pair with
      | Some (cp, rest) => Some (utf8 cp, rest)
      | None => Some (utf8 u, rest)
      end
  end.

(** The characters of a JSON string after its opening quote, up to the
    closing one. *)
Fixpoint parse_string (fuel : nat) (s : string) : option (string * string) :=
  match fuel, s with
  | O, _ | _, EmptyString => None
  | S fuel, String c rest =>
      let n := code c in
      if n =? 34 then Some ("", rest)
      else
        let piece :=
          if n =? 92 then
            match rest with
            | EmptyString => None
            | String e rest =>
                let k := code e in
                if (k =? 34) || (k =? 92) || (k =? 47) then Some (String e "", rest)
                else if k =? 98 then Some (String (char 8) "", rest)
                else if k =? 102 then Some (String (char 12) "", rest)
                else if k =? 110 then Some (String (char 10) "", rest)
                else if k =? 114 then Some (String (char 13) "", rest)
                else if k =? 116 then Some (String (char 9) "", rest)
                else if k =? 117 then unicode_escape rest
                else None
            end
          else if n <? 32 then None
          else Some (String c "", rest) in
        match piece with
        | None => None
        | Some (text, rest) =>
            match parse_string fuel rest with
            | None => None
            | Some (more, rest) => Some (text ++ more, rest)
            end
        end
  end.

(** An array index: the canonical decimal numeral of an integer below
    [2^32 - 1].  An object lists the properties named by array indices
    first, in ascending order, and then the others in the order of their
    creation. *)
Definition array_index (k : string) : option Z :=
  match k with
  | EmptyString => None
  | String c rest =>
      let '(n, count, tail) := take_digits k 0 0 in
      let canonical :=
        match rest with
        | EmptyString => true
        | String _ _ => negb (code c =? 48)
        end in
      match tail with
      | EmptyString =>
          if canonical && (count <=? 10)%Z && (n <? 4294967295)%Z then Some n else None
      | String _ _ => None
      end
  end.

(** The place of a new property named by the array index [n]. *)
Fixpoint define_index (n : Z) (k : string) (v : JSValue)
    (fields : list (string * JSValue)) : list (string * JSValue) :=
  match fields with
  | [] => [(k, v)]
  | (k', v') :: rest =>
      match array_index k' with
      | Some n' =>
          if (n' <? n)%Z then (k', v') :: define_index n k v rest
          else (k, v) :: (k', v') :: rest
      | None => (k, v) :: (k', v') :: rest
      end
  end.

Fixpoint redefine (k : string) (v : JSValue) (fields : list (string * JSValue))
    : list (string * JSValue) :=
  match fields with
  | [] => []
  | (k', v') :: rest =>
      if String.eqb k k' then (k, v) :: rest else (k', v') :: redefine k v rest
  end.

(** A later duplicate of a key replaces the earlier value in place; a new
    key takes its place in the order of the properties. *)
Definition define (k : string) (v : JSValue) (fields : list (string * JSValue))
    : list (string * JSValue) :=
  if existsb (fun f => String.eqb k (fst f)) fields then redefine k v fields
  else
    match array_index k with
    | Some n => define_index n k v fields
    | None => (fields ++ [(k, v)])%list
    end.

Fixpoint parse_value (fuel : nat) (s : string) : option (JSValue * string) :=
  match fuel with
  | O => None
  | S fuel =>
      match skip s with
      | EmptyString => None
      | String c rest as s =>
          let n := code c in
          if n =? 123 then
            match skip rest with
            | String c' rest' as inner =>
                if code c' =? 125 then Some (JObj [], rest')
                else parse_members fuel inner []
            | EmptyString => None
            end
          else if n =? 91 then
            match skip rest with
            | String c' rest' as inner =>
                if code c' =? 93 then Some (JArr [], rest')
                else parse_elements fuel inner []
            | EmptyString => None
            end
          else if n =? 34 then
            match parse_string (String.length rest) rest with
            | Some (text, rest) => Some (JStr text, rest)
            | None => None
            end
          else if n =? 45 then parse_number true rest
          else if is_digit c then parse_number false s
          else
            match after "true" s, after "false" s, after "null" s with
            | Some rest, _, _ => Some (JBool true, rest)
            | _, Some rest, _ => Some (JBool false, rest)
            | _, _, Some rest => Some (JNull, rest)
            | _, _, _ => None
            end
      end
  end

with parse_elements (fuel : nat) (s : string) (done : list JSValue)
    : option (JSValue * string) :=
  match fuel with
  | O => None
  | S fuel =>
      match parse_value fuel s with
      | None => None
      | Some (v, rest) =>
          match skip rest with
          | String c rest =>
              if code c =? 44 then parse_elements fuel rest (done ++ [v])
              else if code c =? 93 then Some (JArr (done ++ [v]), rest)
              else None
          | EmptyString => None
          end
      end
  end

with parse_members (fuel : nat) (s : string) (done : list (string * JSValue))
    : option (JSValue * string) :=
  match fuel with
  | O => None
  | S fuel =>
      match skip s with
      | String c rest =>
          if code c =? 34 then
            match parse_string (String.length rest) rest with
            | None => None
            | Some (k, rest) =>
                match skip rest with
                | String colon rest =>
                    if code colon =? 58 then
                      match parse_value fuel rest with
                      | None => None
                      | Some (v, rest) =>
                          match skip rest with
                          | String c rest =>
                              if code c =? 44 then parse_members fuel rest (define k v done)
                              else if code c =? 125 then Some (JObj (define k v done), rest)
                              else None
                          | EmptyString => None
                          end
                      end
                    else None
                | EmptyString => None
                end
            end
          else None
      | EmptyString => None
      end
  end.

Definition JSON_parse (text : string) : string + JSValue :=
  match parse_value (S (2 * String.length text)) text with
  | Some (v, rest) =>
      match skip rest with
      | EmptyString => inr v
      | String _ _ => inl "Unexpected non-whitespace character after JSON"
      end
  | None => inl "Unexpected token in JSON"
  end.

(** *** [JSON.stringify] *)

Definition hex_digit (n : N) : ascii := char (if n <? 10 then 48 + n else 87 + n).

Definition unicode (n : N) : string :=
  String (char 92) (String (char 117)
    (String (hex_digit (n / 4096)) (String (hex_digit ((n / 256) mod 16))
       (String (hex_digit ((n / 16) mod 16)) (String (hex_digit (n mod 16)) ""))))).

Definition escaped (c : ascii) : string := String (char 92) (String c "").

(** QuoteJSONString, without the enclosing quotes. *)
Fixpoint quoted (s : string) : string :=
  match s with
  | EmptyString => ""
  | String c rest =>
      let n := code c in
      let plain :=
        (if (n =? 34) || (n =? 92) then escaped c
         else if n =? 8 then escaped (char 98)
         else if n =? 12 then escaped (char 102)
         else if n =? 10 then escaped (char 110)
         else if n =? 13 then escaped (char 114)
         else if n =? 9 then escaped (char 116)
         else if n <? 32 then unicode n
         else String c "") in
      match rest with
      | String b (String a rest') =>
          if (n =? 237) && (160 <=? code b) && (code b <=? 191)
          then (unicode (53248 + (code b - 128) * 64 + (code a - 128)) ++ quoted rest')%string
          else (plain ++ quoted rest)%string
      | _ => (plain ++ quoted rest)%string
      end
  end.

Local Open Scope string_scope.

Definition QuoteJSONString (s : string) : string := quote ++ quoted s ++ quote.

(** SerializeJSONProperty: [None] is [undefined]. *)
Fixpoint serialize (v : JSValue) : option string :=
  match v with
  | JUndefined => None
  | JNull => Some "null"
  | JBool true => Some "true"
  | JBool false => Some "false"
  | JNum x => Some (if PrimFloat.is_finite x then Number_toString x else "null")
  | JStr s => Some (QuoteJSONString s)
  | JArr items =>
      Some ("[" ++ String.concat ","
              ((fix elements (l : list JSValue) : list string :=
                  match l with
                  | [] => []
                  | x :: rest =>
                      match serialize x with
                      | Some t => t
                      | None => "null"
                      end :: elements rest
                  end) items) ++ "]")
  | JObj fields =>
      Some ("{" ++ String.concat ","
              ((fix properties (l : list (string * JSValue)) : list string :=
                  match l with
                  | [] => []
                  | (k, x) :: rest =>
                      match serialize x with
                      | Some t => (QuoteJSONString k ++ ":" ++ t) :: properties rest
                      | None => properties rest
                      end
                  end) fields) ++ "}")
  end.

Definition JSON_stringify (v : JSValue) : option string := serialize v.

(** Reading property [k] of [null] or [undefined]. *)
Definition TypeError_message (v : JSValue) (k : string) : string :=
  "Cannot read properties of "
  ++ match v with JNull => "null" | _ => "undefined" end
  ++ " (reading '" ++ k ++ "')".

(** A string in double quotes, as it stands in a JSON text. *)
Definition dq (s : string) : string := quote ++ s ++ quote.

End Engine.

#[export] Instance engine : Platform := {|
  backend := Engine.backend;
  Number_toString := Engine.Number_toString;
  JSON_parse := Engine.JSON_parse;
  JSON_stringify := Engine.JSON_stringify;
  TypeError_message := Engine.TypeError_message
|}.

(** ** Scenarios

    Worlds and answers of concrete runs of the model over the engine. *)
Module Browser.

(** A first visit: nothing is stored. *)
Definition firstVisit : World := boot ∅.

(** A fix arrived, then the "Medical" chip was chosen: query 0 (all
    categories) and query 1 (medical) are in flight. *)
Definition twoQueries : World :=
  run [GeoFix 24.8607 67.0011; SelectCategory "medical"] firstVisit.

Definition queryAll : Request :=
  GET_nearby "/api/vendors/nearby"
    [("lat", "24.8607"); ("lng", "67.0011"); ("radius_km", "5")].

Definition queryMedical : Request :=
  GET_nearby "/api/vendors/nearby"
    [("lat", "24.8607"); ("lng", "67.0011"); ("radius_km", "5");
     ("service_type", "medical")].

Definition vendor (id category : string) : JSValue :=
  JObj [("id", JStr id); ("name", JStr ("Vendor " ++ id));
        ("service_type", JStr category);
        ("location",
         JObj [("type", JStr "Point");
               ("coordinates", JArr [JNum 67.0011; JNum 24.8607])])].

Definition allVendors : JSValue :=
  JArr [vendor "v1" "tow_truck"; vendor "v2" "medical"; vendor "v3" "hotel"].

Definition medicalVendors : JSValue := JArr [vendor "v2" "medical"].

Definition answer (code : Z) (data : JSValue) : FetchResult :=
  Responded {| status := code; body := Parsed data |}.

(** A stored session: a token and a user record. *)
Definition session : gmap string string :=
  <["madad_user" := "{" ++ Engine.dq "id" ++ ":7}"]> (<["madad_token" := "T1"]> ∅).

(** The form filled in and submitted on a first visit: request 0 is the
    login, sent by instance 0 of the form. *)
Definition submitted : World :=
  run [TypePhone "03001234567"; TypePassword "secret1"; Submit] firstVisit.

Definition loginRequest : Request :=
  POST_auth "/api/auth/login"
    (JSON_stringify
       (JObj [("phone", JStr "03001234567"); ("password", JStr "secret1")])).

Definition profile : JSValue := JObj [("id", JNum 7); ("name", JStr "Ali")].

End Browser.

(** ** The rest of the components *)

(** [const serviceLabels = {...}]; [serviceKeys] are its keys, in order. *)
Definition serviceLabels : list (string * JSValue) :=
  [("tow_truck", JStr "Tow Truck"); ("mechanic", JStr "Mechanic");
   ("hotel", JStr "Hotel"); ("medical", JStr "Medical");
   ("car_wash", JStr "Car Wash"); ("electrician", JStr "Electrician");
   ("plumber", JStr "Plumber")].

(** [CategoryChips]: the chips in the order rendered, each with its label
    and whether it is drawn active. *)
Definition CategoryChips (active : string) : list (JSValue * bool) :=
  (JStr "All", negb (truthy (JStr active)))
  :: map (fun k => (field k serviceLabels, String.eqb active k)) serviceKeys.

(** *** The themed variant

    [src/unnamed/part_000] holds, in its lines 1-472, the same [App] with a
    colour theme added: one more state cell, one more persisted entry
    ([madad_theme]), two more lines in the restore effect and
    [handleThemeChange].  Its other handlers are those of [src/App.jsx]. *)
Record ThemedApp : Type := { world : World; theme : string }.

(** [const themeKeys = Object.keys(themes)] *)
Definition themeKeys : list string := ["emerald"; "sky"; "fuchsia"; "amber"; "lime"].

Section Themed.

Context {platform : Platform}.

(** What [themes[k]] finds on [Object.prototype] when [k] is no theme:
    whether a truthy property of that name is inherited. *)
Variable inherited : string -> bool.

(** The truthiness of [themes[k]]: every theme is an object. *)
Definition themed (k : string) : bool :=
  existsb (String.eqb k) themeKeys || inherited k.

(** The restore effect of the variant: the lines of [restore], then the
    theme, unless [JSON.parse] threw before. *)
Definition restoreThemed (a : ThemedApp) : ThemedApp :=
  let w := restore (world a) in
  match crashed w with
  | Some _ => {| world := w; theme := theme a |}
  | None =>
      match getItem "madad_theme" w with
      | Some savedTheme =>
          if truthy (JStr savedTheme) && themed savedTheme
          then {| world := w; theme := savedTheme |}
          else {| world := w; theme := theme a |}
      | None => {| world := w; theme := theme a |}
      end
  end.

(** The first render of the variant: [useState('emerald')], then the effects. *)
Definition bootThemed (store : gmap string string) : ThemedApp :=
  let a := restoreThemed {| world := initialWorld store; theme := "emerald" |} in
  {| world := boot store; theme := theme a |}.

Definition handleThemeChange (k : string) (a : ThemedApp) : ThemedApp :=
  {| world := setItem "madad_theme" (JStr k) (world a); theme := k |}.

(** [ThemeSelector] has one button per theme. *)
Definition selectTheme (k : string) (a : ThemedApp) : ThemedApp :=
  if is_some (crashed (world a)) then a
  else if existsb (String.eqb k) themeKeys then handleThemeChange k a else a.

(** What can happen in the variant: what can happen in [src/App.jsx], and a
    button of [ThemeSelector], which is rendered all the time. *)
Inductive ThemedEvent : Type :=
| Plain (e : Event)
| ClickTheme (k : string).

Definition stepThemed (e : ThemedEvent) (a : ThemedApp) : ThemedApp :=
  match e with
  | Plain e => {| world := step e (world a); theme := theme a |}
  | ClickTheme k => selectTheme k a
  end.

Definition runThemed (events : list ThemedEvent) (a : ThemedApp) : ThemedApp :=
  fold_left (fun a e => stepThemed e a) events a.

(** The event is no theme button. *)
Definition plain (e : ThemedEvent) : Prop :=
  match e with Plain _ => True | ClickTheme _ => False end.

(** The theme held is a theme, and it is the one stored. *)
Definition themeStored (a : ThemedApp) : Prop :=
  In (theme a) themeKeys
  /\ localStorage (world a) !! "madad_theme" = Some (theme a).

End Themed.

(** *** Notions the further properties are stated with *)
Section Notions.

Context {platform : Platform}.

(** Issue numbers are used once: what is in flight was issued before. *)
Definition issuedBefore (w : World) : Prop :=
  forall id x, inflight w !! id = Some x -> id < issued w.

(** A token held in memory is the one in the store. *)
Definition backed (w : World) : Prop :=
  truthy (token (app w)) = true ->
  localStorage w !! "madad_token" = Some (ToString (token (app w))).

(** The two session entries are in the store together or not at all. *)
Definition paired (store : gmap string string) : Prop :=
  is_Some (store !! "madad_token") <-> is_Some (store !! "madad_user").

(** No vendor query is in flight. *)
Definition noQuery (w : World) : Prop :=
  forall id req, inflight w !! id <> Some (req, AfterNearby).

(** The event is no position fix. *)
Definition noFix (e : Event) : Prop :=
  match e with GeoFix _ _ => False | _ => True end.

(** What every handler and effect leaves to the session and to the view
    when it does not mean to change them. *)
Definition keeps (w w' : World) : Prop :=
  token (app w') = token (app w)
  /\ user (app w') = user (app w)
  /\ showAuthGate (app w') = showAuthGate (app w)
  /\ vendors (app w') = vendors (app w)
  /\ position (app w') = position (app w)
  /\ serviceType (app w') = serviceType (app w)
  /\ localStorage w' = localStorage w
  /\ crashed w' = crashed w.

(** What one transition can do to the session: nothing, a logout, or a
    login. *)
Definition sessionStep (w w' : World) : Prop :=
  (token (app w') = token (app w) /\ user (app w') = user (app w)
   /\ localStorage w' = localStorage w)
  \/ (token (app w') = JNull /\ user (app w') = JNull
      /\ showAuthGate (app w') = true
      /\ localStorage w'
         = delete "madad_user" (delete "madad_token" (localStorage w)))
  \/ (exists t u : JSValue,
        token (app w') = t /\ user (app w') = u
        /\ showAuthGate (app w') = false
        /\ localStorage w'
           = <["madad_user" :=
                 ToString (match JSON_stringify u with
                           | Some text => JStr text
                           | None => JUndefined
                           end)]>
               (<["madad_token" := ToString t]> (localStorage w))).

(** Requests sent one after the other, from issue number [n] on. *)
Fixpoint sendAll (l : list (Request * Pending)) (n : nat)
    (m : gmap nat (Request * Pending)) : gmap nat (Request * Pending) :=
  match l with
  | [] => m
  | x :: l => sendAll l (S n) (<[n := x]> m)
  end.

(** From [w] to [w'] the requests [l] were sent, and none settled. *)
Definition grows (w w' : World) (l : list (Request * Pending)) : Prop :=
  inflight w' = sendAll l (issued w) (inflight w)
  /\ issued w' = issued w + length l.

(** A verification or a login, with the continuation that goes with it. *)
Definition calm (x : Request * Pending) : Prop :=
  match x with
  | (GET_me _ _, AfterMe) | (POST_auth _ _, AfterAuth _) => True
  | _ => False
  end.

(** A request as the code of [w'] sends it: a verification, a login, or a
    vendor query for the position and the category of [w']. *)
Definition lawful (w' : World) (x : Request * Pending) : Prop :=
  calm x
  \/ exists p,
       position (app w') = Some p
       /\ x = (GET_nearby (backend ++ "/api/vendors/nearby")
                          (nearbyParams p (serviceType (app w'))), AfterNearby).

(** The login and register requests in flight in [w'] were so in [w]. *)
Definition noNewSubmission (w w' : World) : Prop :=
  forall id req i,
    inflight w' !! id = Some (req, AfterAuth i) ->
    inflight w !! id = Some (req, AfterAuth i).

(** What one transition can do to the form on screen and to its
    submissions: leave them; mount a new form; submit the form, which was
    not loading and now is; or handle the answer to a submission of the
    form on screen. *)
Definition formStep (w w' : World) : Prop :=
  (authInstance w' = authInstance w
   /\ auth_loading (authScreen w') = auth_loading (authScreen w)
   /\ noNewSubmission w w')
  \/ (authInstance w' = S (authInstance w) /\ noNewSubmission w w')
  \/ (authInstance w' = authInstance w
      /\ auth_loading (authScreen w) = false
      /\ auth_loading (authScreen w') = true
      /\ forall id req i,
           inflight w' !! id = Some (req, AfterAuth i) ->
           inflight w !! id = Some (req, AfterAuth i)
           \/ (id = issued w /\ i = authInstance w))
  \/ (exists id req,
        inflight w !! id = Some (req, AfterAuth (authInstance w))
        /\ authInstance w' = authInstance w
        /\ forall id' req' i,
             inflight w' !! id' = Some (req', AfterAuth i) ->
             id' <> id /\ inflight w !! id' = Some (req', AfterAuth i)).

(** The submissions in flight belong to the forms mounted so far; the form
    on screen has at most one in flight and is loading while it has. *)
Definition oneSubmission (w : World) : Prop :=
  (forall id req i,
     inflight w !! id = Some (req, AfterAuth i) -> i <= authInstance w)
  /\ (forall id req,
        inflight w !! id = Some (req, AfterAuth (authInstance w)) ->
        auth_loading (authScreen w) = true)
  /\ (forall id1 id2 req1 req2,
        inflight w !! id1 = Some (req1, AfterAuth (authInstance w)) ->
        inflight w !! id2 = Some (req2, AfterAuth (authInstance w)) ->
        id1 = id2).

End Notions.

(** The render after [setVendors], by cases on whether it throws. *)
Ltac through_render :=
  cbn [returned]; unfold render;
  try match goal with
      | |- context [markers ?v] => destruct (markers v)
      end.

(** ** Properties of the handlers

    Stated for every platform. *)
Section Properties.

Context {platform : Platform}.

(** *** Transitions *)

Lemma live_step (w : World) :
  live w ->
  forall body : World, (if is_some (crashed w) then w else body) = body.
Proof. intros L body. unfold live in L. rewrite L. reflexivity. Qed.

Lemma settle_nearby (w : World) (id : nat) (req : Request) (r : FetchResult) :
  live w ->
  inflight w !! id = Some (req, AfterNearby) ->
  step (Settle id r) w
  = if returned (nearbyVendors r) then render (afterNearby r (settle id w))
    else afterNearby r (settle id w).
Proof.
  intros L H. unfold step. rewrite (live_step w L).
  rewrite H. reflexivity.
Qed.

(** The render changes nothing but whether the tree is mounted. *)
Lemma render_frame (w : World) :
  app (render w) = app w
  /\ authScreen (render w) = authScreen w
  /\ authInstance (render w) = authInstance w
  /\ localStorage (render w) = localStorage w
  /\ inflight (render w) = inflight w
  /\ issued (render w) = issued w.
Proof. unfold render. destruct (markers (vendors (app w))); repeat split. Qed.

Lemma render_live (w : World) (keys : list JSValue) :
  markers (vendors (app w)) = inr keys -> render w = w.
Proof. intros M. unfold render. rewrite M. reflexivity. Qed.

Lemma settle_me (w : World) (id : nat) (req : Request) (r : FetchResult) :
  live w ->
  inflight w !! id = Some (req, AfterMe) ->
  step (Settle id r) w
  = effects w (negb (returned (sessionValid r))) false (afterMe r (settle id w)).
Proof.
  intros L H. unfold step. rewrite (live_step w L).
  rewrite H. reflexivity.
Qed.

Lemma settle_auth (w : World) (id instance : nat) (req : Request) (r : FetchResult) :
  live w ->
  inflight w !! id = Some (req, AfterAuth instance) ->
  step (Settle id r) w
  = effects w (returned (credentials r)) false (afterAuth instance r (settle id w)).
Proof.
  intros L H. unfold step. rewrite (live_step w L).
  rewrite H. reflexivity.
Qed.

(** *** Effects *)

(** Effects that find nothing to do: no token and no position was set,
    the login gate did not come up and the category is as before. *)
Lemma effects_idle (before w : World) :
  showAuthGate (app w) && negb (showAuthGate (app before)) = false ->
  serviceType (app w) = serviceType (app before) ->
  effects before false false w = w.
Proof.
  intros G S. unfold effects. rewrite G. cbn.
  rewrite S, String.eqb_refl. reflexivity.
Qed.

(** [verify] only sends a request. *)
Lemma verify_frame (w : World) :
  app (verify w) = app w
  /\ localStorage (verify w) = localStorage w
  /\ crashed (verify w) = crashed w
  /\ authScreen (verify w) = authScreen w
  /\ authInstance (verify w) = authInstance w.
Proof. unfold verify. destruct (negb (truthy (token (app w)))); cbn; auto. Qed.

(** What the effects leave alone when no position was set and the
    category is as before: the state of [App] and the store. *)
Lemma effects_frame (before w : World) (tokenSet : bool) :
  serviceType (app w) = serviceType (app before) ->
  app (effects before tokenSet false w) = app w
  /\ localStorage (effects before tokenSet false w) = localStorage w
  /\ crashed (effects before tokenSet false w) = crashed w.
Proof.
  intros S. unfold effects.
  set (w1 := if showAuthGate (app w) && negb (showAuthGate (app before))
             then mountAuthScreen w else w).
  assert (F1 : app w1 = app w /\ localStorage w1 = localStorage w
               /\ crashed w1 = crashed w).
  { subst w1. destruct (showAuthGate (app w) && negb (showAuthGate (app before)));
      cbn; auto. }
  set (w2 := if tokenSet && negb (same_value (token (app before)) (token (app w1)))
             then verify w1 else w1).
  assert (F2 : app w2 = app w1 /\ localStorage w2 = localStorage w1
               /\ crashed w2 = crashed w1).
  { subst w2.
    destruct (tokenSet && negb (same_value (token (app before)) (token (app w1))));
      [| auto].
    destruct (verify_frame w1) as (A & B & C & _). auto. }
  destruct F1 as (A1 & B1 & C1), F2 as (A2 & B2 & C2).
  assert (E : serviceType (app w2) = serviceType (app before))
    by (rewrite A2, A1; exact S).
  rewrite E, String.eqb_refl. cbn.
  rewrite A2, B2, C2. auto.
Qed.

(** With no token in the state, the verify effect sends nothing. *)
Lemma effects_signed_out (before w : World) (tokenSet : bool) :
  truthy (token (app w)) = false ->
  serviceType (app w) = serviceType (app before) ->
  effects before tokenSet false w
  = if showAuthGate (app w) && negb (showAuthGate (app before))
    then mountAuthScreen w else w.
Proof.
  intros T S. unfold effects.
  set (w1 := if showAuthGate (app w) && negb (showAuthGate (app before))
             then mountAuthScreen w else w).
  assert (A : app w1 = app w).
  { subst w1. destruct (showAuthGate (app w) && negb (showAuthGate (app before)));
      reflexivity. }
  assert (V : verify w1 = w1) by (unfold verify; rewrite A, T; reflexivity).
  rewrite V.
  destruct (tokenSet && negb (same_value (token (app before)) (token (app w1))));
    rewrite A, S, String.eqb_refl; reflexivity.
Qed.

(** With a token in the state, [verify] puts the verification in flight
    under the next issue number. *)
Lemma verify_sends (w : World) :
  truthy (token (app w)) = true ->
  inflight (verify w) !! issued w
  = Some (GET_me (backend ++ "/api/auth/me")
                 ("Bearer " ++ ToString (token (app w))), AfterMe)
  /\ issued (verify w) = S (issued w).
Proof.
  intros T. unfold verify. rewrite T. cbn.
  rewrite lookup_insert_eq. split; reflexivity.
Qed.


(** *** What the continuations do *)

Lemma failed_nearby (r : FetchResult) :
  failed r -> exists e, nearbyVendors r = inl e.
Proof.
  destruct r as [m | res]; cbn; intros F.
  - eauto.
  - rewrite F. cbn. eauto.
Qed.

Lemma failed_session (r : FetchResult) :
  failed r -> exists e, sessionValid r = inl e.
Proof.
  destruct r as [m | res]; cbn; intros F.
  - eauto.
  - rewrite F. cbn. eauto.
Qed.

Lemma afterMe_failure (r : FetchResult) (e : Exn) (w : World) :
  sessionValid r = inl e ->
  afterMe r w = logout w.
Proof. intros F. unfold afterMe, logout. rewrite F. reflexivity. Qed.

Lemma logout_loggedOut (w : World) : loggedOut (logout w).
Proof.
  unfold loggedOut, logout. cbn. repeat split.
  - rewrite lookup_delete_ne by discriminate. apply lookup_delete_eq.
  - apply lookup_delete_eq.
Qed.

(** Whatever the [try] block of [fetchNearby] throws, the [catch] block
    only raises the notice. *)
Lemma afterNearby_thrown (r : FetchResult) (e : Exn) (w : World) :
  nearbyVendors r = inl e ->
  afterNearby r w = setLoading false (setError "Could not load nearby vendors" w).
Proof. intros F. unfold afterNearby. rewrite F. reflexivity. Qed.

Lemma afterNearby_returned (r : FetchResult) (v : JSValue) (w : World) :
  nearbyVendors r = inr v ->
  afterNearby r w = setLoading false (setVendors v w).
Proof. intros F. unfold afterNearby. rewrite F. reflexivity. Qed.

(** A vendor query settles with vendors that render. *)
Lemma settle_nearby_returned
    (w : World) (id : nat) (req : Request) (r : FetchResult) (v : JSValue)
    (keys : list JSValue) :
  live w ->
  inflight w !! id = Some (req, AfterNearby) ->
  nearbyVendors r = inr v ->
  markers v = inr keys ->
  step (Settle id r) w = setLoading false (setVendors v (settle id w)).
Proof.
  intros L H N M. rewrite (settle_nearby w id req r L H), (afterNearby_returned _ _ _ N).
  rewrite N. cbn [returned]. apply (render_live _ keys). exact M.
Qed.

(** A vendor query settles with vendors on which the render throws. *)
Lemma settle_nearby_unrendered
    (w : World) (id : nat) (req : Request) (r : FetchResult) (v : JSValue) (e : Exn) :
  live w ->
  inflight w !! id = Some (req, AfterNearby) ->
  nearbyVendors r = inr v ->
  markers v = inl e ->
  step (Settle id r) w = crash e (setLoading false (setVendors v (settle id w))).
Proof.
  intros L H N M. rewrite (settle_nearby w id req r L H), (afterNearby_returned _ _ _ N).
  rewrite N. cbn [returned]. unfold render.
  change (vendors (app (setLoading false (setVendors v (settle id w))))) with v.
  rewrite M. reflexivity.
Qed.

(** A vendor query settles and the [try] block throws. *)
Lemma settle_nearby_thrown
    (w : World) (id : nat) (req : Request) (r : FetchResult) (e : Exn) :
  live w ->
  inflight w !! id = Some (req, AfterNearby) ->
  nearbyVendors r = inl e ->
  step (Settle id r) w
  = setLoading false (setError "Could not load nearby vendors" (settle id w)).
Proof.
  intros L H N. rewrite (settle_nearby w id req r L H), (afterNearby_thrown _ _ _ N).
  rewrite N. reflexivity.
Qed.

(** Whatever the [try] block of [handleSubmit] throws, the [catch] block
    only shows the message in the form that submitted, if it is still
    mounted. *)
Lemma settle_auth_thrown
    (w : World) (id instance : nat) (req : Request) (r : FetchResult) (e : Exn) :
  live w ->
  inflight w !! id = Some (req, AfterAuth instance) ->
  credentials r = inl e ->
  step (Settle id r) w
  = auth_setLoading instance false (auth_setError instance (message e) (settle id w)).
Proof.
  intros L H E. rewrite (settle_auth w id instance req r L H).
  unfold afterAuth. rewrite E. cbn [returned].
  apply effects_idle.
  - unfold auth_setLoading, auth_setError.
    repeat match goal with
           | |- context [if ?c then _ else _] => destruct c
           end; apply andb_negb_r.
  - unfold auth_setLoading, auth_setError.
    repeat match goal with
           | |- context [if ?c then _ else _] => destruct c
           end; reflexivity.
Qed.



(** An object without the key reads [undefined] there: a body that lacks
    the [vendors] field is one whose [vendors] is [undefined]. *)
Lemma field_absent (k : string) (fields : list (string * JSValue)) :
  (forall v, ~ In (k, v) fields) -> field k fields = JUndefined.
Proof.
  induction fields as [| [k' v'] rest IH]; intros A; cbn; [reflexivity |].
  destruct (String.eqb_spec k k') as [-> | N].
  - exfalso. apply (A v'). left. reflexivity.
  - apply IH. intros v I. apply (A v). right. exact I.
Qed.

Lemma get_absent (k : string) (fields : list (string * JSValue)) :
  (forall v, ~ In (k, v) fields) -> get (JObj fields) k = inr JUndefined.
Proof. intros A. cbn. rewrite (field_absent k fields A). reflexivity. Qed.

(** *** When a vendor query is sent *)







(** *** The claims *)

(** C1, as the code has it.  Two vendor fetches in flight, [a] issued
    before [b], both successful with vendors that the render accepts: when
    [b] settles first its result is displayed, and when [a] settles
    afterwards its result replaces it.  The displayed vendors are those of
    the fetch that settled last. *)
Theorem last_settled_fetch_wins
    (w : World) (a b : nat) (reqA reqB : Request) (rA rB : FetchResult)
    (vA vB : JSValue) (keysA keysB : list JSValue) :
  live w ->
  a < b ->
  inflight w !! a = Some (reqA, AfterNearby) ->
  inflight w !! b = Some (reqB, AfterNearby) ->
  nearbyVendors rA = inr vA ->
  nearbyVendors rB = inr vB ->
  markers vA = inr keysA ->
  markers vB = inr keysB ->
  let w1 := step (Settle b rB) w in
  let w2 := step (Settle a rA) w1 in
  (vendors (app w1) = vB /\ live w1)
  /\ (vendors (app w2) = vA /\ live w2).
Proof.
  intros L Lt HA HB EA EB MA MB w1 w2. subst w2 w1.
  rewrite (settle_nearby_returned w b reqB rB vB keysB L HB EB MB).
  split; [split; [reflexivity | exact L] |].
  rewrite (settle_nearby_returned _ a reqA rA vA keysA); [| exact L | | exact EA | exact MA].
  - split; [reflexivity | exact L].
  - cbn. rewrite lookup_delete_ne by lia. exact HA.
Qed.

(** C2, as the code has it.  A manual refresh with no position sends
    nothing and changes nothing; the fallback coordinate is where the map
    is centred.  With a position the query carries it with radius 5, and
    under the category "medical" also [service_type=medical]. *)
Theorem refresh_needs_position (w : World) :
  live w ->
  (position (app w) = None ->
   step ClickRefresh w = w /\ center w = (24.8607%float, 67.0011%float))
  /\ (forall p, position (app w) = Some p ->
       let w' := step ClickRefresh w in
       inflight w' !! issued w
       = Some (GET_nearby (backend ++ "/api/vendors/nearby")
                          (nearbyParams p (serviceType (app w))), AfterNearby)
       /\ issued w' = S (issued w)
       /\ center w = p)
  /\ (forall p,
       nearbyParams p "medical"
       = [("lat", Number_toString (fst p)); ("lng", Number_toString (snd p));
          ("radius_km", "5"); ("service_type", "medical")]).
Proof.
  intros L. unfold step. rewrite (live_step w L).
  unfold fetchNearby, center. split; [| split].
  - intros P. rewrite P. split; reflexivity.
  - intros p P. rewrite P. cbn. rewrite lookup_insert_eq. repeat split.
  - intros p. reflexivity.
Qed.

(** C3 on the code.  A user entry that is not empty and that [JSON.parse]
    rejects makes the restore effect throw: the exception escapes,
    [showAuthGate] is not set and no user is restored, whereas without the entry the page
    starts normally. *)
Theorem restore_throws_on_malformed_user
    (store : gmap string string) (u m : string) :
  store !! "madad_user" = Some u ->
  u <> "" ->
  JSON_parse u = inl m ->
  crashed (boot store) = Some (SyntaxError m)
  /\ user (app (boot store)) = JNull
  /\ showAuthGate (app (boot store)) = showAuthGate initialApp
  /\ crashed (boot (delete "madad_user" store)) = None.
Proof.
  intros U N P.
  assert (T : truthy (JStr u) = true).
  { cbn. destruct (String.eqb_spec u ""); [contradiction | reflexivity]. }
  assert (R : restore (initialWorld store)
              = crash (SyntaxError m)
                  (match store !! "madad_token" with
                   | Some t => if truthy (JStr t)
                               then setToken (JStr t) (initialWorld store)
                               else initialWorld store
                   | None => initialWorld store
                   end)).
  { unfold restore, getItem. cbn [localStorage initialWorld].
    rewrite U, T, P. reflexivity. }
  split; [| split; [| split]].
  - unfold boot. rewrite R. reflexivity.
  - unfold boot. rewrite R.
    destruct (store !! "madad_token") as [t |]; [destruct (truthy (JStr t)) |];
      reflexivity.
  - unfold boot. rewrite R.
    destruct (store !! "madad_token") as [t |]; [destruct (truthy (JStr t)) |];
      reflexivity.
  - unfold boot.
    set (w0 := initialWorld (delete "madad_user" store)).
    assert (C : crashed (restore w0) = None).
    { unfold restore, getItem. subst w0. cbn [localStorage initialWorld].
      rewrite lookup_delete_eq.
      destruct (delete "madad_user" store !! "madad_token") as [t |];
        [destruct (truthy (JStr t)) |]; reflexivity. }
    rewrite C.
    assert (S : serviceType (app (restore w0)) = serviceType (app w0)).
    { unfold restore, getItem. subst w0. cbn [localStorage initialWorld].
      rewrite lookup_delete_eq.
      destruct (delete "madad_user" store !! "madad_token") as [t |];
        [destruct (truthy (JStr t)) |]; reflexivity. }
    destruct (effects_frame w0 (restore w0) true S) as (_ & _ & E).
    rewrite E. exact C.
Qed.

(** C4. [verify()] against a server that fails in any way (the request is
    rejected, or any response that is not ok, whatever its status and its
    body) ends with the token and the user absent, both persisted entries
    removed and the login gate shown.  However the server answers, the
    verification is over afterwards and the session is either exactly as
    it was or logged out. *)
Theorem verify_failure_forces_logout
    (w : World) (id : nat) (req : Request) (r : FetchResult) :
  live w ->
  inflight w !! id = Some (req, AfterMe) ->
  let w' := step (Settle id r) w in
  (failed r -> loggedOut w')
  /\ inflight w' !! id = None
  /\ ((app w' = app w /\ localStorage w' = localStorage w) \/ loggedOut w').
Proof.
  intros L H w'. subst w'. rewrite (settle_me w id req r L H).
  destruct (sessionValid r) as [e | []] eqn:E.
  - assert (Out : loggedOut (effects w true false (afterMe r (settle id w)))).
    { rewrite (afterMe_failure r e _ E).
      destruct (effects_frame w (logout (settle id w)) true eq_refl) as (A & S & _).
      pose proof (logout_loggedOut (settle id w)) as O.
      unfold loggedOut in *. rewrite A, S. exact O. }
    cbn [returned negb]. split; [auto | split; [| auto]].
    rewrite (afterMe_failure r e _ E).
    rewrite effects_signed_out by reflexivity.
    destruct (showAuthGate (app (logout (settle id w)))
              && negb (showAuthGate (app w))); cbn; apply lookup_delete_eq.
  - cbn [returned negb]. unfold afterMe. rewrite E.
    rewrite effects_idle; [| apply andb_negb_r | reflexivity].
    split; [| split].
    + intros F. destruct (failed_session r F) as [e E']. congruence.
    + apply lookup_delete_eq.
    + left. split; reflexivity.
Qed.

(** C5. A vendor fetch that fails (the request is rejected, or the response
    is not ok) leaves the displayed vendors as they were and shows the
    notice, which the next fetch clears; nothing is sent again, and the
    token, the user, [showAuthGate], the position and the store are
    untouched. *)
Theorem fetch_failure_keeps_vendors
    (w : World) (id : nat) (req : Request) (r : FetchResult) :
  live w ->
  inflight w !! id = Some (req, AfterNearby) ->
  failed r ->
  let w' := step (Settle id r) w in
  vendors (app w') = vendors (app w)
  /\ error (app w') = "Could not load nearby vendors"
  /\ (forall p, position (app w') = Some p -> error (app (fetchNearby w')) = "")
  /\ issued w' = issued w
  /\ inflight w' = delete id (inflight w)
  /\ token (app w') = token (app w)
  /\ user (app w') = user (app w)
  /\ showAuthGate (app w') = showAuthGate (app w)
  /\ position (app w') = position (app w)
  /\ localStorage w' = localStorage w
  /\ live w'.
Proof.
  intros L H F w'. subst w'.
  destruct (failed_nearby r F) as [e E].
  rewrite (settle_nearby_thrown w id req r e L H E).
  repeat split; try reflexivity; try exact L.
  intros p P. unfold fetchNearby. rewrite P. reflexivity.
Qed.


(** C7. A login or register attempt answered by an ok response that
    carries a token and a user sets, in the one transition in which the
    response is handled, the token, the user and [showAuthGate] in memory
    and both entries in the store, so that memory and store both hold the
    session afterwards; the other entries of the store stay. *)
Theorem auth_success_sets_session
    (w : World) (id instance : nat) (req : Request) (res : Response)
    (data u : JSValue) (t text : string) :
  live w ->
  inflight w !! id = Some (req, AfterAuth instance) ->
  ok res = true ->
  body res = Parsed data ->
  get data "access_token" = inr (JStr t) ->
  get data "user" = inr u ->
  JSON_stringify u = Some text ->
  let w' := step (Settle id (Responded res)) w in
  token (app w') = JStr t
  /\ user (app w') = u
  /\ showAuthGate (app w') = false
  /\ localStorage w' !! "madad_token" = Some t
  /\ localStorage w' !! "madad_user" = Some text
  /\ (forall k, k <> "madad_token" -> k <> "madad_user" ->
                localStorage w' !! k = localStorage w !! k)
  /\ (t <> "" -> truthy (token (app w')) = true)
  /\ live w'.
Proof.
  intros L H O B T U J w'. subst w'.
  assert (E : credentials (Responded res) = inr (JStr t, u)).
  { unfold credentials. rewrite O, B, T, U. reflexivity. }
  rewrite (settle_auth w id instance req _ L H).
  unfold afterAuth. rewrite E, J. cbn [returned].
  set (w1 := auth_setLoading _ _ _).
  assert (W : w1 = handleAuthed (JStr t) u
                     (setItem "madad_user" (JStr text)
                        (setItem "madad_token" (JStr t) (settle id w)))).
  { subst w1. unfold auth_setLoading. reflexivity. }
  destruct (effects_frame w w1 true) as (A & S & C).
  { rewrite W. reflexivity. }
  rewrite A, S. unfold live. rewrite C, W. cbn.
  repeat split.
  - rewrite lookup_insert_ne by discriminate. apply lookup_insert_eq.
  - apply lookup_insert_eq.
  - intros k N1 N2. rewrite !lookup_insert_ne by congruence. reflexivity.
  - intros N. destruct (String.eqb_spec t ""); [contradiction | reflexivity].
  - exact L.
Qed.


(** C9. [continueAsGuest] leaves the token, the user and the store as they
    are and sends nothing: the world is unchanged but for [showAuthGate],
    which becomes false. *)
Theorem guest_keeps_token (w : World) :
  let w' := step ClickGuest w in
  token (app w') = token (app w)
  /\ user (app w') = user (app w)
  /\ localStorage w' = localStorage w
  /\ inflight w' = inflight w
  /\ (w' = w \/ w' = setShowAuthGate false w)
  /\ handleGuest w = setShowAuthGate false w.
Proof.
  cbv zeta. unfold step.
  destruct (is_some (crashed w)); [repeat split; auto |].
  destruct (showAuthGate (app w)) eqn:G; [| repeat split; auto].
  rewrite effects_idle by reflexivity.
  unfold handleGuest. repeat split; auto.
Qed.

(** C10. A vendor fetch that succeeds with a body whose [vendors] is
    missing or [null] replaces the displayed vendors by the empty array; no
    notice is raised and nothing is thrown. *)
Theorem missing_vendors_shows_none
    (w : World) (id : nat) (req : Request) (res : Response) (data v : JSValue) :
  live w ->
  inflight w !! id = Some (req, AfterNearby) ->
  ok res = true ->
  body res = Parsed data ->
  get data "vendors" = inr v ->
  v = JUndefined \/ v = JNull ->
  let w' := step (Settle id (Responded res)) w in
  vendors (app w') = JArr []
  /\ error (app w') = error (app w)
  /\ nearbyVendors (Responded res) = inr (JArr [])
  /\ live w'.
Proof.
  intros L H O B G V w'. subst w'.
  assert (N : nearbyVendors (Responded res) = inr (JArr [])).
  { unfold nearbyVendors. rewrite O, B, G. cbn.
    destruct V as [-> | ->]; reflexivity. }
  rewrite (settle_nearby_returned w id req _ (JArr []) [] L H N eq_refl).
  repeat split; try reflexivity; try exact L. exact N.
Qed.

End Properties.

(** ** Further properties

    Invariants of runs, round trips through the store, and what the
    handlers leave alone. *)
Section Further.

Context {platform : Platform}.

(** *** What is kept *)

Lemma keeps_refl (w : World) : keeps w w.
Proof. repeat split. Qed.

Lemma keeps_trans (w1 w2 w3 : World) : keeps w1 w2 -> keeps w2 w3 -> keeps w1 w3.
Proof.
  unfold keeps. intros (A1 & A2 & A3 & A4 & A5 & A6 & A7 & A8)
                       (B1 & B2 & B3 & B4 & B5 & B6 & B7 & B8).
  repeat split; congruence.
Qed.

Lemma verify_keeps (w : World) : keeps w (verify w).
Proof. unfold verify. destruct (negb (truthy (token (app w)))); repeat split. Qed.

Lemma fetchNearby_keeps (w : World) : keeps w (fetchNearby w).
Proof. unfold fetchNearby. destruct (position (app w)); repeat split. Qed.

Lemma effects_keeps (before w : World) (tokenSet positionSet : bool) :
  keeps w (effects before tokenSet positionSet w).
Proof.
  unfold effects.
  set (w1 := if showAuthGate (app w) && negb (showAuthGate (app before))
             then mountAuthScreen w else w).
  assert (K1 : keeps w w1).
  { subst w1. destruct (showAuthGate (app w) && negb (showAuthGate (app before)));
      repeat split. }
  set (w2 := if tokenSet && negb (same_value (token (app before)) (token (app w1)))
             then verify w1 else w1).
  assert (K2 : keeps w1 w2).
  { subst w2.
    destruct (tokenSet && negb (same_value (token (app before)) (token (app w1))));
      [apply verify_keeps | apply keeps_refl]. }
  apply (keeps_trans _ _ _ K1). apply (keeps_trans _ _ _ K2).
  destruct (positionSet
            || negb (serviceType (app before) =? serviceType (app w2))%string);
    [apply fetchNearby_keeps | apply keeps_refl].
Qed.

Ltac through_effects :=
  match goal with
  | |- context [effects ?b ?ts ?ps ?x] =>
      let K := fresh "K" in
      pose proof (effects_keeps b x ts ps) as K;
      unfold keeps in K;
      destruct K as (?Kt & ?Ku & ?Kg & ?Kv & ?Kp & ?Ks & ?Kl & ?Kc)
  end.

Lemma afterAuth_thrown (instance : nat) (r : FetchResult) (e : Exn) (w : World) :
  credentials r = inl e ->
  keeps w (afterAuth instance r w).
Proof.
  intros E. unfold afterAuth, auth_setLoading, auth_setError. rewrite E.
  repeat match goal with
         | |- context [if ?c then _ else _] => destruct c
         end; repeat split.
Qed.

Lemma afterAuth_returned (instance : nat) (r : FetchResult) (t u : JSValue) (w : World) :
  credentials r = inr (t, u) ->
  afterAuth instance r w
  = handleAuthed t u
      (setItem "madad_user"
         (match JSON_stringify u with Some text => JStr text | None => JUndefined end)
         (setItem "madad_token" t w)).
Proof. intros E. unfold afterAuth. rewrite E. reflexivity. Qed.

(** Every transition leaves the session alone, logs out, or logs in. *)
Lemma step_session (e : Event) (w : World) : sessionStep w (step e w).
Proof.
  unfold step. destruct (is_some (crashed w)); [left; auto |].
  destruct e.
  - through_effects. left. rewrite Kt, Ku, Kl. auto.
  - left. auto.
  - destruct (chip k); [| left; auto].
    through_effects. left. rewrite Kt, Ku, Kl. auto.
  - destruct (fetchNearby_keeps w) as (Kt & Ku & _ & _ & _ & _ & Kl & _).
    left. auto.
  - destruct (truthy (user (app w))); [left; auto |].
    through_effects. left. rewrite Kt, Ku, Kl. auto.
  - destruct (truthy (user (app w))); [| left; auto].
    through_effects. right. left. rewrite Kt, Ku, Kg, Kl. auto.
  - destruct (showAuthGate (app w)); [| left; auto].
    through_effects. left. rewrite Kt, Ku, Kl. auto.
  - destruct (showAuthGate (app w)); left; auto.
  - destruct (showAuthGate (app w)); left; auto.
  - destruct (showAuthGate (app w)); left; auto.
  - destruct (showAuthGate (app w)); [destruct (mode (authScreen w)) |]; left; auto.
  - destruct (showAuthGate (app w)); left; auto.
  - destruct (showAuthGate (app w) && negb (auth_loading (authScreen w)));
      [| left; auto].
    unfold handleSubmit, auth_setLoading, auth_setError.
    repeat match goal with
           | |- context [if ?c then _ else _] => destruct c
           end; left; auto.
  - destruct (inflight w !! id) as [[req [| | instance]] |]; [| | | left; auto].
    + through_effects. unfold afterMe in *.
      destruct (sessionValid r).
      * right. left. rewrite Kt, Ku, Kg, Kl. auto.
      * left. rewrite Kt, Ku, Kl. auto.
    + left. unfold afterNearby. destruct (nearbyVendors r); through_render; auto.
    + through_effects.
      destruct (credentials r) as [x | [t u]] eqn:E.
      * destruct (afterAuth_thrown instance r x (settle id w) E)
          as (At & Au & _ & _ & _ & _ & Al & _).
        left. rewrite Kt, Ku, Kl, At, Au, Al. auto.
      * rewrite (afterAuth_returned instance r t u _ E) in *.
        right. right. exists t, u. rewrite Kt, Ku, Kg, Kl. auto.
Qed.

(** A property that every transition preserves holds along every run. *)
Lemma run_invariant (P : World -> Prop) :
  (forall e w, P w -> P (step e w)) ->
  forall events w, P w -> P (run events w).
Proof.
  intros Step events. unfold run.
  induction events as [| e events IH]; intros w H; cbn; [exact H |].
  apply IH, Step, H.
Qed.

(** What the restore effect leaves in memory, whether it throws or not. *)
Lemma restore_token (w : World) :
  localStorage (restore w) = localStorage w
  /\ token (app (restore w))
     = match getItem "madad_token" w with
       | Some t => if truthy (JStr t) then JStr t else token (app w)
       | None => token (app w)
       end.
Proof.
  unfold restore.
  destruct (getItem "madad_token" w) as [t |]; [destruct (truthy (JStr t)) |];
    (destruct (getItem "madad_user" w) as [u |];
     [destruct (truthy (JStr u)); [destruct (JSON_parse u) |] |]);
    split; reflexivity.
Qed.

Lemma boot_keeps (store : gmap string string) :
  keeps (restore (initialWorld store)) (boot store).
Proof.
  unfold boot. destruct (crashed (restore (initialWorld store)));
    [apply keeps_refl | apply effects_keeps].
Qed.

Lemma boot_backed (store : gmap string string) : backed (boot store).
Proof.
  destruct (boot_keeps store) as (Kt & _ & _ & _ & _ & _ & Kl & _).
  destruct (restore_token (initialWorld store)) as (Rl & Rt).
  unfold backed. rewrite Kt, Kl, Rl, Rt. unfold getItem.
  change (localStorage (initialWorld store)) with store.
  change (token (app (initialWorld store))) with JNull.
  destruct (store !! "madad_token") as [t |]; [| discriminate].
  destruct (truthy (JStr t)); [reflexivity | discriminate].
Qed.

Lemma step_backed (e : Event) (w : World) : backed w -> backed (step e w).
Proof.
  intros B. unfold backed in *.
  destruct (step_session e w) as [(T & _ & L) | [(T & _ & _ & L) | (t & u & T & _ & _ & L)]].
  - rewrite T, L. exact B.
  - rewrite T. discriminate.
  - rewrite T, L. intros _.
    rewrite lookup_insert_ne by discriminate. apply lookup_insert_eq.
Qed.

(** X1. From the first render on, a token held in memory is always the one
    in the store: whatever the user does and however the requests settle,
    reloading the page finds the token the page was working with. *)
Theorem token_in_memory_is_stored (store : gmap string string) (events : list Event) :
  backed (run events (boot store)).
Proof. apply run_invariant; [apply step_backed | apply boot_backed]. Qed.

Lemma step_paired (e : Event) (w : World) :
  paired (localStorage w) -> paired (localStorage (step e w)).
Proof.
  unfold paired.
  destruct (step_session e w) as [(_ & _ & L) | [(_ & _ & _ & L) | (t & u & _ & _ & _ & L)]];
    rewrite L; [auto | |]; intros _.
  - rewrite lookup_delete_ne by discriminate. rewrite !lookup_delete_eq.
    split; intros [x X]; discriminate.
  - rewrite lookup_insert_ne by discriminate. rewrite !lookup_insert_eq.
    split; eauto.
Qed.

(** X2. The token entry and the user entry are written together and removed
    together: a store that holds both or neither still does after any run. *)
Theorem session_entries_go_together (w : World) (events : list Event) :
  paired (localStorage w) ->
  paired (localStorage (run events w)).
Proof.
  apply (run_invariant (fun w => paired (localStorage w))). apply step_paired.
Qed.

(** *** Requests in flight *)

Lemma sendAll_app (l1 l2 : list (Request * Pending)) (n : nat)
    (m : gmap nat (Request * Pending)) :
  sendAll (l1 ++ l2) n m = sendAll l2 (n + length l1) (sendAll l1 n m).
Proof.
  revert n m. induction l1 as [| x l1 IH]; intros n m; cbn.
  - rewrite Nat.add_0_r. reflexivity.
  - rewrite IH. f_equal. lia.
Qed.

Lemma sendAll_below (l : list (Request * Pending)) (n id : nat)
    (m : gmap nat (Request * Pending)) :
  id < n -> sendAll l n m !! id = m !! id.
Proof.
  revert n m. induction l as [| x l IH]; intros n m Lt; cbn; [reflexivity |].
  rewrite IH by lia. apply lookup_insert_ne. lia.
Qed.

Lemma sendAll_first (x : Request * Pending) (l : list (Request * Pending)) (n : nat)
    (m : gmap nat (Request * Pending)) :
  sendAll (x :: l) n m !! n = Some x.
Proof. cbn. rewrite sendAll_below by lia. apply lookup_insert_eq. Qed.

Lemma sendAll_lookup (l : list (Request * Pending)) (n id : nat)
    (m : gmap nat (Request * Pending)) (x : Request * Pending) :
  sendAll l n m !! id = Some x ->
  m !! id = Some x \/ (In x l /\ n <= id < n + length l).
Proof.
  revert n m. induction l as [| y l IH]; intros n m H; cbn in *; [auto |].
  destruct (IH _ _ H) as [M | (I & B)].
  - destruct (decide (n = id)) as [-> | N].
    + rewrite lookup_insert_eq in M. injection M as ->. right. split; [auto | lia].
    + rewrite lookup_insert_ne in M by exact N. auto.
  - right. split; [auto | lia].
Qed.

Lemma grows_same (w w' : World) :
  inflight w' = inflight w -> issued w' = issued w -> grows w w' [].
Proof. intros I N. split; cbn; [exact I | lia]. Qed.

Lemma grows_trans (w1 w2 w3 : World) (l1 l2 : list (Request * Pending)) :
  grows w1 w2 l1 -> grows w2 w3 l2 -> grows w1 w3 (l1 ++ l2).
Proof.
  intros (I1 & N1) (I2 & N2). split.
  - rewrite I2, I1, N1, sendAll_app. reflexivity.
  - rewrite N2, N1, length_app. lia.
Qed.

Lemma grows_send (r : Request) (k : Pending) (w : World) :
  grows w (send r k w) [(r, k)].
Proof. split; cbn; [reflexivity | lia]. Qed.

Lemma calm_lawful (w : World) (l : list (Request * Pending)) :
  Forall calm l -> Forall (lawful w) l.
Proof.
  intros C. eapply Forall_impl; [exact C |]. intros x H. left. exact H.
Qed.

Lemma verify_grows (w : World) :
  exists l, grows w (verify w) l /\ Forall calm l.
Proof.
  unfold verify. destruct (negb (truthy (token (app w)))).
  - exists []. split; [apply grows_same; reflexivity | constructor].
  - eexists. split; [apply grows_send |]. repeat constructor.
Qed.

Lemma fetchNearby_grows (w : World) :
  exists l, grows w (fetchNearby w) l /\ Forall (lawful (fetchNearby w)) l.
Proof.
  unfold fetchNearby. destruct (position (app w)) as [p |] eqn:P.
  - eexists. split.
    + apply (grows_trans w (setError "" (setLoading true w)) _ []);
        [apply grows_same; reflexivity | apply grows_send].
    + constructor; [| constructor].
      right. exists p. split; [exact P | reflexivity].
  - exists []. split; [apply grows_same; reflexivity | constructor].
Qed.

Lemma handleSubmit_grows (w : World) :
  exists l, grows w (handleSubmit w) l /\ Forall calm l.
Proof.
  unfold handleSubmit. destruct (negb (canSubmit (authScreen w))).
  - exists []. split; [apply grows_same; reflexivity | constructor].
  - eexists. split.
    + eapply (grows_trans w _ _ []); [| apply grows_send].
      unfold auth_setLoading, auth_setError.
      repeat match goal with
             | |- context [if ?c then _ else _] => destruct c
             end; apply grows_same; reflexivity.
    + repeat constructor.
Qed.

Lemma effects_grows (before w : World) (tokenSet positionSet : bool) :
  exists l,
    grows w (effects before tokenSet positionSet w) l
    /\ Forall (lawful (effects before tokenSet positionSet w)) l.
Proof.
  unfold effects.
  set (w1 := if showAuthGate (app w) && negb (showAuthGate (app before))
             then mountAuthScreen w else w).
  assert (G1 : grows w w1 []).
  { subst w1. destruct (showAuthGate (app w) && negb (showAuthGate (app before)));
      apply grows_same; reflexivity. }
  set (w2 := if tokenSet && negb (same_value (token (app before)) (token (app w1)))
             then verify w1 else w1).
  assert (G2 : exists l, grows w1 w2 l /\ Forall calm l).
  { subst w2.
    destruct (tokenSet && negb (same_value (token (app before)) (token (app w1)))).
    - apply verify_grows.
    - exists []. split; [apply grows_same; reflexivity | constructor]. }
  destruct G2 as (l2 & G2 & C2).
  destruct (positionSet
            || negb (serviceType (app before) =? serviceType (app w2))%string).
  - destruct (fetchNearby_grows w2) as (l3 & G3 & L3).
    exists (l2 ++ l3)%list. split.
    + apply (grows_trans _ _ _ [] _ G1). apply (grows_trans _ _ _ _ _ G2 G3).
    + apply Forall_app. split; [apply calm_lawful, C2 | exact L3].
  - exists l2. split.
    + apply (grows_trans _ _ _ [] _ G1 G2).
    + apply calm_lawful, C2.
Qed.

Lemma afterMe_network (r : FetchResult) (w : World) :
  inflight (afterMe r w) = inflight w /\ issued (afterMe r w) = issued w.
Proof. unfold afterMe. destruct (sessionValid r); split; reflexivity. Qed.

Lemma afterAuth_network (instance : nat) (r : FetchResult) (w : World) :
  inflight (afterAuth instance r w) = inflight w
  /\ issued (afterAuth instance r w) = issued w.
Proof.
  unfold afterAuth, auth_setLoading, auth_setError.
  destruct (credentials r) as [? | [? ?]];
    repeat match goal with
           | |- context [if ?c then _ else _] => destruct c
           end; split; reflexivity.
Qed.

Lemma afterNearby_network (r : FetchResult) (w : World) :
  inflight (afterNearby r w) = inflight w /\ issued (afterNearby r w) = issued w.
Proof. unfold afterNearby. destruct (nearbyVendors r); split; reflexivity. Qed.

(** A request in flight settles: it leaves, and the effects may send. *)
Lemma settle_network (w : World) (id : nat) (x : Request * Pending) (r : FetchResult) :
  live w ->
  inflight w !! id = Some x ->
  exists l,
    grows (settle id w) (step (Settle id r) w) l
    /\ Forall (lawful (step (Settle id r) w)) l.
Proof.
  intros L H. unfold step. rewrite L, H. cbn [is_some].
  assert (After : forall (y : World) (ts : bool),
             inflight y = inflight (settle id w) -> issued y = issued (settle id w) ->
             exists l, grows (settle id w) (effects w ts false y) l
                       /\ Forall (lawful (effects w ts false y)) l).
  { intros y ts I N. destruct (effects_grows w y ts false) as (l & G & F).
    exists l. split; [| exact F].
    apply (grows_trans _ y _ [] l); [apply grows_same; assumption | exact G]. }
  destruct x as [req [| | instance]].
  - apply After; apply afterMe_network.
  - exists []. split; [| constructor].
    destruct (afterNearby_network r (settle id w)) as (I & N).
    destruct (render_frame (afterNearby r (settle id w))) as (_ & _ & _ & _ & I' & N').
    destruct (returned (nearbyVendors r));
      apply grows_same; congruence.
  - apply After; apply afterAuth_network.
Qed.

(** What one transition does to the requests in flight: at most one
    settles, then the requests of the handler and of the effects are sent,
    each as the code sends it. *)
Lemma step_network (e : Event) (w : World) :
  exists l,
    Forall (lawful (step e w)) l
    /\ (grows w (step e w) l
        \/ exists id r x,
             e = Settle id r /\ live w /\ inflight w !! id = Some x
             /\ grows (settle id w) (step e w) l).
Proof.
  assert (Idle : forall w' : World,
             inflight w' = inflight w -> issued w' = issued w ->
             exists l, Forall (lawful w') l
                       /\ (grows w w' l
                           \/ exists id r x,
                                e = Settle id r /\ live w /\ inflight w !! id = Some x
                                /\ grows (settle id w) w' l)).
  { intros w' I N. exists []. split; [constructor | left; apply grows_same; assumption]. }
  assert (Eff : forall (x : World) (ts ps : bool),
             inflight x = inflight w -> issued x = issued w ->
             exists l, Forall (lawful (effects w ts ps x)) l
                       /\ (grows w (effects w ts ps x) l
                           \/ exists id r y,
                                e = Settle id r /\ live w /\ inflight w !! id = Some y
                                /\ grows (settle id w) (effects w ts ps x) l)).
  { intros x ts ps I N. destruct (effects_grows w x ts ps) as (l & G & L).
    exists l. split; [exact L | left].
    apply (grows_trans w x _ [] l); [apply grows_same; assumption | exact G]. }
  unfold step. destruct (crashed w) as [c |] eqn:C; [apply Idle; reflexivity |].
  cbn [is_some].
  destruct e.
  - apply Eff; reflexivity.
  - apply Idle; reflexivity.
  - destruct (chip k); [apply Eff | apply Idle]; reflexivity.
  - destruct (fetchNearby_grows w) as (l & G & L). exists l. auto.
  - destruct (truthy (user (app w))); [apply Idle | apply Eff]; reflexivity.
  - destruct (truthy (user (app w))); [apply Eff | apply Idle]; reflexivity.
  - destruct (showAuthGate (app w)); [apply Eff | apply Idle]; reflexivity.
  - destruct (showAuthGate (app w)); apply Idle; reflexivity.
  - destruct (showAuthGate (app w)); apply Idle; reflexivity.
  - destruct (showAuthGate (app w)); apply Idle; reflexivity.
  - destruct (showAuthGate (app w)); [destruct (mode (authScreen w)) |];
      apply Idle; reflexivity.
  - destruct (showAuthGate (app w)); apply Idle; reflexivity.
  - destruct (showAuthGate (app w) && negb (auth_loading (authScreen w)));
      [| apply Idle; reflexivity].
    destruct (handleSubmit_grows w) as (l & G & L).
    exists l. split; [apply calm_lawful, L | left; exact G].
  - destruct (inflight w !! id) as [[req k] |] eqn:H; [| apply Idle; reflexivity].
    assert (After : forall (x : World) (ts : bool),
               inflight x = inflight (settle id w) -> issued x = issued (settle id w) ->
               exists l, Forall (lawful (effects w ts false x)) l
                         /\ (grows w (effects w ts false x) l
                             \/ exists id0 r0 y,
                                  Settle id r = Settle id0 r0 /\ live w
                                  /\ inflight w !! id0 = Some y
                                  /\ grows (settle id0 w) (effects w ts false x) l)).
    { intros x ts I N. destruct (effects_grows w x ts false) as (l & G & L).
      exists l. split; [exact L | right]. exists id, r, (req, k).
      repeat split; [exact C | exact H | |].
      - destruct G as (G & _). rewrite G, I, N. reflexivity.
      - destruct G as (_ & G). rewrite G, N. reflexivity. }
    destruct k as [| | instance].
    + apply After; apply afterMe_network.
    + exists []. split; [constructor | right]. exists id, r, (req, AfterNearby).
      destruct (afterNearby_network r (settle id w)) as (I & N).
      destruct (render_frame (afterNearby r (settle id w))) as (_ & _ & _ & _ & I' & N').
      repeat split; [exact C | exact H | |];
        destruct (returned (nearbyVendors r)); cbv zeta;
        rewrite ?I', ?N', ?I, ?N; cbn; try reflexivity; lia.
    + apply After; apply afterAuth_network.
Qed.

Lemma grows_issuedBefore (w w' : World) (l : list (Request * Pending)) :
  issuedBefore w -> grows w w' l -> issuedBefore w'.
Proof.
  intros B (I & N) id x H. rewrite I in H. rewrite N.
  destruct (sendAll_lookup _ _ _ _ _ H) as [M | (_ & R)]; [| lia].
  specialize (B id x M). lia.
Qed.

Lemma settle_issuedBefore (w : World) (id : nat) :
  issuedBefore w -> issuedBefore (settle id w).
Proof.
  intros B id' x H. cbn in H. apply lookup_delete_Some in H as (_ & H).
  exact (B id' x H).
Qed.

Lemma step_issuedBefore (e : Event) (w : World) :
  issuedBefore w -> issuedBefore (step e w).
Proof.
  intros B. destruct (step_network e w) as (l & _ & [G | (id & r & x & _ & _ & _ & G)]).
  - exact (grows_issuedBefore _ _ _ B G).
  - exact (grows_issuedBefore _ _ _ (settle_issuedBefore w id B) G).
Qed.

Lemma restore_network (w : World) :
  inflight (restore w) = inflight w /\ issued (restore w) = issued w.
Proof.
  unfold restore.
  destruct (getItem "madad_token" w) as [t |]; [destruct (truthy (JStr t)) |];
    (destruct (getItem "madad_user" w) as [u |];
     [destruct (truthy (JStr u)); [destruct (JSON_parse u) |] |]);
    split; reflexivity.
Qed.

(** The first render sends at most requests as the code sends them. *)
Lemma boot_network (store : gmap string string) :
  exists l, grows (initialWorld store) (boot store) l
            /\ Forall (lawful (boot store)) l.
Proof.
  destruct (restore_network (initialWorld store)) as (I & N).
  unfold boot. destruct (crashed (restore (initialWorld store))).
  - exists []. split; [apply grows_same; assumption | constructor].
  - destruct (effects_grows (initialWorld store) (restore (initialWorld store))
                true false) as (l & G & F).
    exists l. split; [| exact F].
    apply (grows_trans _ (restore (initialWorld store)) _ [] l);
      [apply grows_same; assumption | exact G].
Qed.

Lemma boot_issuedBefore (store : gmap string string) : issuedBefore (boot store).
Proof.
  destruct (boot_network store) as (l & G & _).
  apply (grows_issuedBefore (initialWorld store) _ l); [| exact G].
  intros id x H. cbn in H. rewrite lookup_empty in H. discriminate.
Qed.

(** Issue numbers are never reused: along every run from the first
    render, each request in flight carries a number below the next one to
    be issued, so a new request cannot take the place of one in flight. *)
Lemma issue_numbers_are_fresh (store : gmap string string) (events : list Event) :
  issuedBefore (run events (boot store)).
Proof. apply run_invariant; [apply step_issuedBefore | apply boot_issuedBefore]. Qed.

(** The request [id] was issued and is no longer in flight. *)
Lemma step_spent (e : Event) (w : World) (id : nat) :
  inflight w !! id = None /\ id < issued w ->
  inflight (step e w) !! id = None /\ id < issued (step e w).
Proof.
  intros (H & Lt).
  assert (Grow : forall (w0 w' : World) (l : list (Request * Pending)),
             inflight w0 !! id = None -> id < issued w0 -> grows w0 w' l ->
             inflight w' !! id = None /\ id < issued w').
  { intros w0 w' l H0 Lt0 (I & N). rewrite I, N. split; [| lia].
    rewrite sendAll_below by exact Lt0. exact H0. }
  destruct (step_network e w) as (l & _ & [G | (id' & r & x & _ & _ & _ & G)]).
  - exact (Grow _ _ _ H Lt G).
  - apply (Grow (settle id' w) _ l); [| exact Lt | exact G].
    cbn. apply lookup_delete_None. auto.
Qed.

(** A response is handled at most once: when a request in flight has
    settled, nothing that happens afterwards puts a request under its
    number in flight again. *)
Lemma settled_request_never_returns
    (w : World) (id : nat) (x : Request * Pending) (r : FetchResult)
    (events : list Event) :
  live w ->
  issuedBefore w ->
  inflight w !! id = Some x ->
  inflight (run events (step (Settle id r) w)) !! id = None.
Proof.
  intros L B H.
  apply (run_invariant
           (fun w => inflight w !! id = None /\ id < issued w)
           (fun e w => step_spent e w id) events).
  destruct (settle_network w id x r L H) as (l & (I & N) & _).
  rewrite I, N. cbn [settle inflight issued].
  specialize (B id x H). split; [| lia].
  rewrite sendAll_below by exact B. apply lookup_delete_eq.
Qed.

(** *** The view *)

(** What one transition can do to the position, the vendors and the
    category: each stays, or changes the one way the code changes it. *)
Lemma step_view (e : Event) (w : World) :
  (position (app (step e w)) = position (app w)
   \/ exists latitude longitude,
        e = GeoFix latitude longitude
        /\ position (app (step e w)) = Some (latitude, longitude))
  /\ (vendors (app (step e w)) = vendors (app w)
      \/ exists id req r v,
           e = Settle id r /\ inflight w !! id = Some (req, AfterNearby)
           /\ nearbyVendors r = inr v /\ vendors (app (step e w)) = v)
  /\ (serviceType (app (step e w)) = serviceType (app w)
      \/ exists k,
           e = SelectCategory k /\ chip k = true
           /\ serviceType (app (step e w)) = k).
Proof.
  unfold step. destruct (is_some (crashed w)); [auto |].
  destruct e.
  - through_effects. rewrite Kv, Kp, Ks. split; [right; eauto | auto].
  - auto.
  - destruct (chip k) eqn:C; [| auto].
    through_effects. rewrite Kv, Kp, Ks. split; [auto | split; [auto | right; eauto]].
  - destruct (fetchNearby_keeps w) as (_ & _ & _ & Kv & Kp & Ks & _). auto.
  - destruct (truthy (user (app w))); [auto |].
    through_effects. rewrite Kv, Kp, Ks. auto.
  - destruct (truthy (user (app w))); [| auto].
    through_effects. rewrite Kv, Kp, Ks. auto.
  - destruct (showAuthGate (app w)); [| auto].
    through_effects. rewrite Kv, Kp, Ks. auto.
  - destruct (showAuthGate (app w)); auto.
  - destruct (showAuthGate (app w)); auto.
  - destruct (showAuthGate (app w)); auto.
  - destruct (showAuthGate (app w)); [destruct (mode (authScreen w)) |]; auto.
  - destruct (showAuthGate (app w)); auto.
  - destruct (showAuthGate (app w) && negb (auth_loading (authScreen w))); [| auto].
    unfold handleSubmit, auth_setLoading, auth_setError.
    repeat match goal with
           | |- context [if ?c then _ else _] => destruct c
           end; auto.
  - destruct (inflight w !! id) as [[req [| | instance]] |] eqn:H; [| | | auto].
    + through_effects. rewrite Kv, Kp, Ks.
      unfold afterMe. destruct (sessionValid r); auto.
    + unfold afterNearby. destruct (nearbyVendors r) as [x | v] eqn:N;
        through_render.
      * auto.
      * split; [auto | split; [| auto]]. right. exists id, req, r, v. auto.
      * split; [auto | split; [| auto]]. right. exists id, req, r, v. auto.
    + through_effects. rewrite Kv, Kp, Ks.
      destruct (credentials r) as [x | [t u]] eqn:E.
      * destruct (afterAuth_thrown instance r x (settle id w) E)
          as (_ & _ & _ & Av & Ap & As & _).
        rewrite Av, Ap, As. auto.
      * rewrite (afterAuth_returned instance r t u _ E). auto.
Qed.

(** [data.vendors || []] is never falsy. *)
Lemma nearbyVendors_truthy (r : FetchResult) (v : JSValue) :
  nearbyVendors r = inr v -> truthy v = true.
Proof.
  unfold nearbyVendors. destruct r as [m | res]; [discriminate |].
  destruct (negb (ok res)); [discriminate |].
  destruct (body res) as [data | m]; [| discriminate].
  destruct (get data "vendors") as [x | x]; [discriminate |].
  intros H. injection H as <-. unfold js_or.
  destruct (truthy x) eqn:T; [exact T | reflexivity].
Qed.

Lemma restore_view (w : World) :
  position (app (restore w)) = position (app w)
  /\ vendors (app (restore w)) = vendors (app w)
  /\ serviceType (app (restore w)) = serviceType (app w).
Proof.
  unfold restore.
  destruct (getItem "madad_token" w) as [t |]; [destruct (truthy (JStr t)) |];
    (destruct (getItem "madad_user" w) as [u |];
     [destruct (truthy (JStr u)); [destruct (JSON_parse u) |] |]);
    repeat split; reflexivity.
Qed.

Lemma boot_view (store : gmap string string) :
  position (app (boot store)) = None
  /\ vendors (app (boot store)) = JArr []
  /\ serviceType (app (boot store)) = "".
Proof.
  destruct (boot_keeps store) as (_ & _ & _ & Kv & Kp & Ks & _).
  destruct (restore_view (initialWorld store)) as (Rp & Rv & Rs).
  rewrite Kv, Kp, Ks, Rp, Rv, Rs. repeat split.
Qed.

(** X3. The displayed vendors are never a falsy value: from the first
    render on, along every run, [vendors] is truthy, so the [vendors.map]
    of the render is never applied to [null] or [undefined]. *)
Theorem vendors_never_nullish (store : gmap string string) (events : list Event) :
  truthy (vendors (app (run events (boot store)))) = true.
Proof.
  apply (run_invariant (fun w => truthy (vendors (app w)) = true)).
  - intros e w T.
    destruct (step_view e w) as (_ & [V | (id & req & r & v & _ & _ & N & V)] & _);
      rewrite V; [exact T | exact (nearbyVendors_truthy r v N)].
  - destruct (boot_view store) as (_ & V & _). rewrite V. reflexivity.
Qed.

(** X4. A position once acquired is never lost: no transition sets it back
    to absent, so after the first fix every later state has a position. *)
Theorem position_is_never_lost (w : World) (p : float * float) (events : list Event) :
  position (app w) = Some p ->
  exists q, position (app (run events w)) = Some q.
Proof.
  intros P.
  apply (run_invariant (fun w => exists q, position (app w) = Some q)); [| eauto].
  intros e w0 (q & Q).
  destruct (step_view e w0) as ([S | (latitude & longitude & _ & S)] & _);
    rewrite S; eauto.
Qed.

(** *** Before the first fix *)

Lemma settle_noQuery (w : World) (id : nat) : noQuery w -> noQuery (settle id w).
Proof.
  intros Q id' req H. cbn in H. apply lookup_delete_Some in H as (_ & H).
  exact (Q id' req H).
Qed.

Lemma grows_noQuery (w w' : World) (l : list (Request * Pending)) :
  noQuery w -> grows w w' l -> Forall (lawful w') l ->
  position (app w') = None -> noQuery w'.
Proof.
  intros Q (I & _) F P id req H. rewrite I in H.
  destruct (sendAll_lookup _ _ _ _ _ H) as [M | (M & _)]; [exact (Q id req M) |].
  rewrite Forall_forall in F. apply list_elem_of_In in M.
  destruct (F _ M) as [C | (p & P' & _)].
  - destruct req; exact C.
  - congruence.
Qed.

Lemma step_unasked (e : Event) (w : World) :
  (position (app w) = None -> vendors (app w) = JArr [] /\ noQuery w) ->
  position (app (step e w)) = None ->
  vendors (app (step e w)) = JArr [] /\ noQuery (step e w).
Proof.
  intros H P'.
  destruct (step_view e w) as (Pos & Ven & _).
  assert (P : position (app w) = None).
  { destruct Pos as [E | (latitude & longitude & _ & E)]; congruence. }
  destruct (H P) as (V & Q). split.
  - destruct Ven as [E | (id & req & r & v & _ & I & _)]; [congruence |].
    destruct (Q id req I).
  - destruct (step_network e w) as (l & F & [G | (id & r & x & _ & _ & _ & G)]).
    + exact (grows_noQuery _ _ _ Q G F P').
    + exact (grows_noQuery _ _ _ (settle_noQuery w id Q) G F P').
Qed.

Lemma boot_unasked (store : gmap string string) :
  vendors (app (boot store)) = JArr [] /\ noQuery (boot store).
Proof.
  destruct (boot_view store) as (P & V & _). split; [exact V |].
  destruct (boot_network store) as (l & G & F).
  apply (grows_noQuery (initialWorld store) _ l); [| exact G | exact F | exact P].
  intros id req H. cbn in H. rewrite lookup_empty in H. discriminate.
Qed.

(** X5. Without a position the directory has been asked nothing: at every
    state of every run from the first render in which the position is
    absent, no vendor query is in flight and the vendors are still the
    empty array the state began with. *)
Theorem nothing_asked_without_position
    (store : gmap string string) (events : list Event) :
  position (app (run events (boot store))) = None ->
  vendors (app (run events (boot store))) = JArr []
  /\ noQuery (run events (boot store)).
Proof.
  apply (run_invariant
           (fun w => position (app w) = None -> vendors (app w) = JArr [] /\ noQuery w)).
  - apply step_unasked.
  - intros _. apply boot_unasked.
Qed.

(** *** The store *)

Lemma step_store (e : Event) (w : World) (k : string) :
  k <> "madad_token" -> k <> "madad_user" ->
  localStorage (step e w) !! k = localStorage w !! k.
Proof.
  intros N1 N2.
  destruct (step_session e w) as [(_ & _ & L) | [(_ & _ & _ & L) | (t & u & _ & _ & _ & L)]];
    rewrite L; [reflexivity | |].
  - rewrite !lookup_delete_ne by congruence. reflexivity.
  - rewrite !lookup_insert_ne by congruence. reflexivity.
Qed.

Lemma run_store (w : World) (events : list Event) (k : string) :
  k <> "madad_token" -> k <> "madad_user" ->
  localStorage (run events w) !! k = localStorage w !! k.
Proof.
  intros N1 N2.
  apply (run_invariant (fun w' => localStorage w' !! k = localStorage w !! k));
    [| reflexivity].
  intros e w' H. rewrite (step_store e w' k N1 N2). exact H.
Qed.

(** X6. The program writes to two entries of the store only: every other
    entry, whoever put it there, is the same after any run. *)
Theorem other_entries_are_untouched (w : World) (events : list Event) (k : string) :
  k <> "madad_token" -> k <> "madad_user" ->
  localStorage (run events w) !! k = localStorage w !! k.
Proof. apply run_store. Qed.

(** *** The category chips *)

Lemma chip_cases (k : string) : chip k = true -> In k ("" :: serviceKeys).
Proof.
  unfold chip. rewrite orb_true_iff, List.existsb_exists.
  intros [H | (x & I & H)]; apply String.eqb_eq in H; subst;
    [left; reflexivity | right; exact I].
Qed.

Lemma chips_one_active (k : string) :
  chip k = true -> length (List.filter snd (CategoryChips k)) = 1.
Proof.
  intros H. apply chip_cases in H. cbn in H.
  repeat (destruct H as [<- | H]; [reflexivity |]). contradiction.
Qed.

Lemma step_chip (e : Event) (w : World) :
  chip (serviceType (app w)) = true -> chip (serviceType (app (step e w))) = true.
Proof.
  intros C. destruct (step_view e w) as (_ & _ & [S | (k & _ & K & S)]);
    rewrite S; assumption.
Qed.

(** X7. The category is always one of the chips rendered, and exactly one
    chip is drawn active: from the first render on, along every run,
    [CategoryChips] highlights one chip, "All" or one service key. *)
Theorem one_chip_is_active (store : gmap string string) (events : list Event) :
  chip (serviceType (app (run events (boot store)))) = true
  /\ length (List.filter snd (CategoryChips (serviceType (app (run events (boot store))))))
     = 1.
Proof.
  assert (C : chip (serviceType (app (run events (boot store)))) = true).
  { apply (run_invariant (fun w => chip (serviceType (app w)) = true)).
    - apply step_chip.
    - destruct (boot_view store) as (_ & _ & S). rewrite S. reflexivity. }
  split; [exact C | exact (chips_one_active _ C)].
Qed.

(** *** A vendor query settles *)

(** X8. However a vendor query settles, the request is over, nothing is
    sent and the store is as before.  The tree stays mounted unless the
    vendors of an ok answer make the render throw.  While it is mounted,
    [finally] has ended the loading indication; the session, the login
    gate, the form, the position and the category are as before; and of
    the vendors and the notice at most one has changed. *)
Theorem vendor_answer_ends_loading
    (w : World) (id : nat) (req : Request) (r : FetchResult) :
  live w ->
  inflight w !! id = Some (req, AfterNearby) ->
  let w' := step (Settle id r) w in
  inflight w' = delete id (inflight w)
  /\ issued w' = issued w
  /\ localStorage w' = localStorage w
  /\ (live w' <-> forall v, nearbyVendors r = inr v -> exists keys, markers v = inr keys)
  /\ (live w' ->
      loading (app w') = false
      /\ token (app w') = token (app w)
      /\ user (app w') = user (app w)
      /\ showAuthGate (app w') = showAuthGate (app w)
      /\ position (app w') = position (app w)
      /\ serviceType (app w') = serviceType (app w)
      /\ authScreen w' = authScreen w
      /\ (vendors (app w') = vendors (app w) \/ error (app w') = error (app w))).
Proof.
  intros L H w'. subst w'.
  destruct (nearbyVendors r) as [e | v] eqn:N; [| destruct (markers v) as [e | keys] eqn:M].
  - rewrite (settle_nearby_thrown w id req r e L H N).
    split; [reflexivity | split; [reflexivity | split; [reflexivity | split]]].
    + split; [discriminate | intros _; exact L].
    + intros _. repeat split; auto.
  - rewrite (settle_nearby_unrendered w id req r v e L H N M).
    split; [reflexivity | split; [reflexivity | split; [reflexivity | split]]].
    + split; [discriminate |].
      intros R. destruct (R v eq_refl) as (keys & K). congruence.
    + discriminate.
  - rewrite (settle_nearby_returned w id req r v keys L H N M).
    split; [reflexivity | split; [reflexivity | split; [reflexivity | split]]].
    + split; [| intros _; exact L].
      intros _ v' V. injection V as <-. eauto.
    + intros _. repeat split; auto.
Qed.

(** X9. [data.vendors || []] guards against a missing list only.  An ok
    response whose [vendors] is truthy but no array (a string, a number, an
    object) is stored as it is, no notice is raised, and the [vendors.map]
    of the next render throws a TypeError, on which React unmounts the
    tree. *)
Theorem vendors_of_another_type_break_the_render
    (w : World) (id : nat) (req : Request) (res : Response) (data v : JSValue) :
  live w ->
  inflight w !! id = Some (req, AfterNearby) ->
  ok res = true ->
  body res = Parsed data ->
  get data "vendors" = inr v ->
  truthy v = true ->
  (forall items, v <> JArr items) ->
  let w' := step (Settle id (Responded res)) w in
  vendors (app w') = v
  /\ error (app w') = error (app w)
  /\ (exists m, mapped (vendors (app w')) = inl (TypeError m))
  /\ (exists m, crashed w' = Some (TypeError m)).
Proof.
  intros L H O B G T A w'. subst w'.
  assert (N : nearbyVendors (Responded res) = inr v).
  { unfold nearbyVendors, js_or. rewrite O, B, G, T. reflexivity. }
  assert (M : exists m, mapped v = inl (TypeError m)).
  { destruct v; cbn; eauto. destruct (A items eq_refl). }
  destruct M as (m & M).
  assert (M' : markers v = inl (TypeError m)) by (unfold markers; rewrite M; reflexivity).
  rewrite (settle_nearby_unrendered w id req _ v _ L H N M').
  split; [reflexivity | split; [reflexivity | split; eauto]].
Qed.

(** *** Logging out *)

(** X10. Logout, offered when a user is held, ends the session in memory and
    in the store and brings up the login gate with a new, empty form.  It
    sends nothing and cancels nothing: the requests in flight stay, and so
    do the vendors, the position and the category. *)
Theorem logout_ends_the_session (w : World) :
  live w ->
  truthy (user (app w)) = true ->
  let w' := step ClickLogout w in
  loggedOut w'
  /\ inflight w' = inflight w
  /\ issued w' = issued w
  /\ vendors (app w') = vendors (app w)
  /\ position (app w') = position (app w)
  /\ serviceType (app w') = serviceType (app w)
  /\ (showAuthGate (app w) = false ->
      authScreen w' = initialAuthScreen /\ authInstance w' = S (authInstance w))
  /\ live w'.
Proof.
  intros L U w'. subst w'. unfold step. rewrite (live_step w L), U.
  rewrite effects_signed_out by reflexivity.
  change (showAuthGate (app (logout w))) with true. cbn [andb].
  pose proof (logout_loggedOut w) as O.
  destruct (showAuthGate (app w)) eqn:G; cbn [negb].
  - repeat split; try apply O; try exact L; discriminate.
  - repeat split; try apply O; exact L.
Qed.

(** *** An answer for a form that is gone *)

(** X11. A failed login or register answer that arrives when the form that
    submitted is no longer on screen (the user went on as guest, or the
    gate came up anew) changes nothing at all: the request is over, and
    the form on screen, if any, shows no error of its predecessor. *)
Theorem late_failure_is_dropped
    (w : World) (id instance : nat) (req : Request) (r : FetchResult) (e : Exn) :
  live w ->
  inflight w !! id = Some (req, AfterAuth instance) ->
  mounted instance w = false ->
  credentials r = inl e ->
  step (Settle id r) w = settle id w.
Proof.
  intros L H M E. rewrite (settle_auth_thrown w id instance req r e L H E).
  unfold auth_setLoading, auth_setError.
  change (mounted instance (settle id w)) with (mounted instance w).
  rewrite M. change (mounted instance (settle id w)) with (mounted instance w).
  rewrite M. reflexivity.
Qed.

(** *** Verification *)

(** The effects after a run that called [setToken], with the login gate
    hidden and the category as before: the verify effect, if the token is
    another one. *)
Lemma effects_verify (before w : World) :
  showAuthGate (app w) = false ->
  serviceType (app w) = serviceType (app before) ->
  effects before true false w
  = if same_value (token (app before)) (token (app w)) then w else verify w.
Proof.
  intros G S. unfold effects. rewrite G. cbn [andb orb].
  destruct (same_value (token (app before)) (token (app w))); cbn [negb].
  - rewrite S, String.eqb_refl. reflexivity.
  - destruct (verify_frame w) as (A & _). rewrite A, S, String.eqb_refl. reflexivity.
Qed.

Lemma settle_auth_returned
    (w : World) (id instance : nat) (req : Request) (r : FetchResult) (t u : JSValue) :
  live w ->
  inflight w !! id = Some (req, AfterAuth instance) ->
  credentials r = inr (t, u) ->
  let w1 :=
    handleAuthed t u
      (setItem "madad_user"
         (match JSON_stringify u with Some text => JStr text | None => JUndefined end)
         (setItem "madad_token" t (settle id w))) in
  step (Settle id r) w
  = if same_value (token (app w)) t then w1 else verify w1.
Proof.
  intros L H E w1. rewrite (settle_auth w id instance req r L H).
  unfold afterAuth. rewrite E. cbn [returned].
  fold w1. unfold auth_setLoading.
  change (mounted instance w1) with false. cbv iota.
  apply (effects_verify w w1); reflexivity.
Qed.

(** X12. A login is followed by the verification of its token.  When the
    answer carries a token that is truthy and not the one held, the same
    transition sends [GET /api/auth/me] with [Bearer <token>], and nothing
    else; when the token is falsy or the one already held, the transition
    sends nothing. *)
Theorem login_starts_verification
    (w : World) (id instance : nat) (req : Request) (r : FetchResult) (t u : JSValue) :
  live w ->
  inflight w !! id = Some (req, AfterAuth instance) ->
  credentials r = inr (t, u) ->
  let w' := step (Settle id r) w in
  (truthy t = true -> same_value (token (app w)) t = false ->
   inflight w'
   = <[issued w := (GET_me (backend ++ "/api/auth/me") ("Bearer " ++ ToString t),
                    AfterMe)]> (delete id (inflight w))
   /\ issued w' = S (issued w))
  /\ (truthy t = false \/ same_value (token (app w)) t = true ->
      inflight w' = delete id (inflight w) /\ issued w' = issued w).
Proof.
  intros L H E w'. subst w'.
  rewrite (settle_auth_returned w id instance req r t u L H E).
  split.
  - intros T S. rewrite S. unfold verify.
    change (token (app (handleAuthed t u ?x))) with t. rewrite T.
    split; reflexivity.
  - intros C. destruct (same_value (token (app w)) t) eqn:S; [split; reflexivity |].
    destruct C as [T | C]; [| discriminate].
    unfold verify. change (token (app (handleAuthed t u ?x))) with t. rewrite T.
    split; reflexivity.
Qed.

(** *** The first render *)

(** The first render over a store that holds a token and a user entry
    that parses. *)
Lemma boot_session
    (store : gmap string string) (t text : string) (v : JSValue) :
  store !! "madad_token" = Some t -> t <> "" ->
  store !! "madad_user" = Some text -> text <> "" ->
  JSON_parse text = inr v ->
  boot store
  = verify (setShowAuthGate false (setUser v (setToken (JStr t) (initialWorld store)))).
Proof.
  intros T N U M J.
  assert (R : restore (initialWorld store)
              = setShowAuthGate false (setUser v (setToken (JStr t) (initialWorld store)))).
  { unfold restore, getItem.
    change (localStorage (initialWorld store)) with store. rewrite T, U.
    cbn [truthy].
    destruct (String.eqb_spec t "") as [| _]; [contradiction |].
    destruct (String.eqb_spec text "") as [| _]; [contradiction |].
    cbn [negb]. rewrite J. reflexivity. }
  unfold boot. rewrite R. change (crashed (setShowAuthGate _ _)) with (@None Exn).
  cbv iota. rewrite effects_verify by reflexivity. reflexivity.
Qed.

(** X13. The first render finds a stored session: with a token and a user
    entry that parses in the store, the token and the parsed user are held
    in memory, the login gate is hidden, and the one request in flight is
    the verification of that token. *)
Theorem stored_session_is_restored
    (store : gmap string string) (t text : string) (v : JSValue) :
  store !! "madad_token" = Some t -> t <> "" ->
  store !! "madad_user" = Some text -> text <> "" ->
  JSON_parse text = inr v ->
  let w := boot store in
  token (app w) = JStr t
  /\ user (app w) = v
  /\ showAuthGate (app w) = false
  /\ inflight w
     = {[0 := (GET_me (backend ++ "/api/auth/me") ("Bearer " ++ t), AfterMe)]}
  /\ issued w = 1
  /\ localStorage w = store
  /\ live w.
Proof.
  intros T N U M J w. subst w. rewrite (boot_session store t text v T N U M J).
  unfold verify. change (token (app (setShowAuthGate _ _))) with (JStr t).
  cbn [truthy]. destruct (String.eqb_spec t "") as [| _]; [contradiction |].
  cbn. repeat split.
Qed.

(** X14. Without a stored token the first render holds no token and sends
    nothing, whatever else the store holds.  The tree is mounted exactly
    when the user entry, if there is a non-empty one, parses; then the
    login gate is shown with the initial form.  When the user entry makes
    [JSON.parse] throw the tree is unmounted and nothing is shown. *)
Theorem no_token_shows_the_gate (store : gmap string string) :
  store !! "madad_token" = None \/ store !! "madad_token" = Some "" ->
  let w := boot store in
  token (app w) = JNull
  /\ inflight w = ∅
  /\ issued w = 0
  /\ localStorage w = store
  /\ (live w <->
      forall text, store !! "madad_user" = Some text -> text <> "" ->
                   exists v, JSON_parse text = inr v)
  /\ (live w -> showAuthGate (app w) = true /\ authScreen w = initialAuthScreen).
Proof.
  intros T w. subst w. unfold boot, live.
  assert (R : exists u,
             restore (initialWorld store)
             = {| app := {| position := None; vendors := JArr []; serviceType := "";
                            loading := false; error := ""; token := JNull;
                            user := u; showAuthGate := true |};
                  authScreen := initialAuthScreen; authInstance := 0;
                  localStorage := store; inflight := ∅; issued := 0;
                  crashed :=
                    match store !! "madad_user" with
                    | Some text =>
                        if truthy (JStr text) then
                          match JSON_parse text with
                          | inl m => Some (SyntaxError m)
                          | inr _ => None
                          end
                        else None
                    | None => None
                    end |}).
  { unfold restore, getItem. change (localStorage (initialWorld store)) with store.
    destruct T as [-> | ->];
      (destruct (store !! "madad_user") as [text |];
       [destruct (truthy (JStr text)); [destruct (JSON_parse text) |] |]);
      eexists; reflexivity. }
  destruct R as (u & R). rewrite R. clear R. cbn [crashed].
  destruct (store !! "madad_user") as [text |] eqn:U.
  - destruct (truthy (JStr text)) eqn:Tt.
    + destruct (JSON_parse text) as [m | v] eqn:J; cbn.
      * repeat split; try discriminate.
        intros P. assert (Ne : text <> "") by (intros ->; discriminate).
        destruct (P text eq_refl Ne) as (v & V). congruence.
      * repeat split. intros _ text' [= <-] _. eauto.
    + cbn. repeat split. intros _ text' [= <-] N.
      cbn in Tt. apply negb_false_iff, String.eqb_eq in Tt. contradiction.
  - cbn. repeat split. intros _ text' X. discriminate.
Qed.

(** X15. A login survives a reload.  After an ok answer with a non-empty
    token string and a user that [JSON.stringify] serialises to a text
    that [JSON.parse] reads back, the first render over the store the
    login left holds that token and the user read back, hides the login
    gate and verifies the token. *)
Theorem login_survives_reload
    (w : World) (id instance : nat) (req : Request) (r : FetchResult)
    (t text : string) (u v : JSValue) :
  live w ->
  inflight w !! id = Some (req, AfterAuth instance) ->
  credentials r = inr (JStr t, u) ->
  t <> "" ->
  JSON_stringify u = Some text -> text <> "" ->
  JSON_parse text = inr v ->
  let reloaded := boot (localStorage (step (Settle id r) w)) in
  token (app reloaded) = JStr t
  /\ user (app reloaded) = v
  /\ showAuthGate (app reloaded) = false
  /\ inflight reloaded
     = {[0 := (GET_me (backend ++ "/api/auth/me") ("Bearer " ++ t), AfterMe)]}
  /\ live reloaded.
Proof.
  intros L H E N S M J reloaded. subst reloaded.
  assert (Store : localStorage (step (Settle id r) w)
                  = <["madad_user" := text]> (<["madad_token" := t]> (localStorage w))).
  { rewrite (settle_auth_returned w id instance req r (JStr t) u L H E). rewrite S.
    destruct (same_value (token (app w)) (JStr t)); [reflexivity |].
    destruct (verify_frame
                (handleAuthed (JStr t) u
                   (setItem "madad_user" (JStr text)
                      (setItem "madad_token" (JStr t) (settle id w)))))
      as (_ & B & _).
    rewrite B. reflexivity. }
  rewrite Store.
  rewrite (boot_session _ t text v); [| | exact N | | exact M | exact J].
  - unfold verify. change (token (app (setShowAuthGate _ _))) with (JStr t).
    cbn [truthy]. destruct (String.eqb_spec t "") as [| _]; [contradiction |].
    cbn. repeat split.
  - rewrite lookup_insert_ne by discriminate. apply lookup_insert_eq.
  - apply lookup_insert_eq.
Qed.

(** *** The form and its submissions *)

Lemma noNewSubmission_same (w w' : World) :
  inflight w' = inflight w -> noNewSubmission w w'.
Proof. intros I id req i H. rewrite I in H. exact H. Qed.

Lemma noNewSubmission_trans (w1 w2 w3 : World) :
  noNewSubmission w1 w2 -> noNewSubmission w2 w3 -> noNewSubmission w1 w3.
Proof. intros A B id req i H. exact (A _ _ _ (B _ _ _ H)). Qed.

Lemma verify_form (w : World) : noNewSubmission w (verify w).
Proof.
  unfold verify. destruct (negb (truthy (token (app w))));
    intros id req i H; [exact H |].
  cbn in H. apply lookup_insert_Some in H as [(_ & H) | (_ & H)];
    [discriminate | exact H].
Qed.

Lemma fetchNearby_form (w : World) :
  noNewSubmission w (fetchNearby w)
  /\ authInstance (fetchNearby w) = authInstance w
  /\ authScreen (fetchNearby w) = authScreen w.
Proof.
  unfold fetchNearby. destruct (position (app w)); (split; [| split; reflexivity]);
    intros id req i H; [| exact H].
  cbn in H. apply lookup_insert_Some in H as [(_ & H) | (_ & H)];
    [discriminate | exact H].
Qed.

Lemma settle_form (w : World) (id : nat) : noNewSubmission w (settle id w).
Proof.
  intros id' req i H. cbn in H. apply lookup_delete_Some in H as (_ & H). exact H.
Qed.

(** The effects mount a new form when the login gate came up, and send no
    login or register request. *)
Lemma effects_form (before x : World) (tokenSet positionSet : bool) :
  let up := showAuthGate (app x) && negb (showAuthGate (app before)) in
  noNewSubmission x (effects before tokenSet positionSet x)
  /\ authInstance (effects before tokenSet positionSet x)
     = (if up then S (authInstance x) else authInstance x)
  /\ authScreen (effects before tokenSet positionSet x)
     = (if up then initialAuthScreen else authScreen x).
Proof.
  cbv zeta. unfold effects.
  set (up := showAuthGate (app x) && negb (showAuthGate (app before))).
  set (w1 := if up then mountAuthScreen x else x).
  assert (F1 : noNewSubmission x w1
               /\ authInstance w1 = (if up then S (authInstance x) else authInstance x)
               /\ authScreen w1 = (if up then initialAuthScreen else authScreen x)).
  { subst w1. destruct up; (split; [apply noNewSubmission_same |]); auto. }
  set (w2 := if tokenSet && negb (same_value (token (app before)) (token (app w1)))
             then verify w1 else w1).
  assert (F2 : noNewSubmission w1 w2
               /\ authInstance w2 = authInstance w1 /\ authScreen w2 = authScreen w1).
  { subst w2.
    destruct (tokenSet && negb (same_value (token (app before)) (token (app w1)))).
    - destruct (verify_frame w1) as (_ & _ & _ & A & B).
      split; [apply verify_form | auto].
    - split; [apply noNewSubmission_same |]; auto. }
  destruct F1 as (N1 & I1 & S1), F2 as (N2 & I2 & S2).
  destruct (positionSet
            || negb (serviceType (app before) =? serviceType (app w2))%string).
  - destruct (fetchNearby_form w2) as (N3 & I3 & S3).
    rewrite I3, S3, I2, S2. split; [| auto].
    exact (noNewSubmission_trans _ _ _ N1 (noNewSubmission_trans _ _ _ N2 N3)).
  - rewrite I2, S2. split; [| auto].
    exact (noNewSubmission_trans _ _ _ N1 N2).
Qed.

(** A handler that leaves the form alone, followed by the effects. *)
Lemma effects_formStep (w x : World) (tokenSet positionSet : bool) :
  authInstance x = authInstance w ->
  authScreen x = authScreen w ->
  noNewSubmission w x ->
  formStep w (effects w tokenSet positionSet x).
Proof.
  intros I S N.
  destruct (effects_form w x tokenSet positionSet) as (N' & I' & S').
  pose proof (noNewSubmission_trans _ _ _ N N') as M.
  destruct (showAuthGate (app x) && negb (showAuthGate (app w))).
  - right. left. rewrite I', I. auto.
  - left. rewrite I', S', I, S. auto.
Qed.

(** [handleSubmit] of the form on screen, when the form can be submitted. *)
Lemma handleSubmit_sends (w : World) :
  showAuthGate (app w) = true ->
  canSubmit (authScreen w) = true ->
  handleSubmit w
  = send (POST_auth (backend ++ endpoint (authScreen w))
                    (JSON_stringify (payload (authScreen w))))
         (AfterAuth (authInstance w))
         (with_authScreen
            (fun s =>
               {| mode := mode s; phone := phone s; email := email s; name := name s;
                  password := password s; auth_loading := true; auth_error := "" |})
            w).
Proof.
  intros G Can. unfold handleSubmit. rewrite Can. cbn [negb].
  unfold auth_setLoading, auth_setError, mounted.
  destruct w as [a s i store flight n c]. cbn in *.
  rewrite G, Nat.eqb_refl. cbn. rewrite G, Nat.eqb_refl. reflexivity.
Qed.

Lemma step_form (e : Event) (w : World) : formStep w (step e w).
Proof.
  assert (Same : forall w' : World,
             authInstance w' = authInstance w ->
             auth_loading (authScreen w') = auth_loading (authScreen w) ->
             inflight w' = inflight w -> formStep w w').
  { intros w' I S F. left. split; [exact I | split; [exact S |]].
    apply noNewSubmission_same, F. }
  unfold step. destruct (crashed w) as [c |] eqn:C; [apply Same; reflexivity |].
  cbn [is_some].
  destruct e.
  - apply effects_formStep; [reflexivity | reflexivity |].
    apply noNewSubmission_same. reflexivity.
  - apply Same; reflexivity.
  - destruct (chip k); [| apply Same; reflexivity].
    apply effects_formStep; [reflexivity | reflexivity |].
    apply noNewSubmission_same. reflexivity.
  - destruct (fetchNearby_form w) as (N & I & S). left. rewrite I, S. auto.
  - destruct (truthy (user (app w))); [apply Same; reflexivity |].
    apply effects_formStep; [reflexivity | reflexivity |].
    apply noNewSubmission_same. reflexivity.
  - destruct (truthy (user (app w))); [| apply Same; reflexivity].
    apply effects_formStep; [reflexivity | reflexivity |].
    apply noNewSubmission_same. reflexivity.
  - destruct (showAuthGate (app w)); [| apply Same; reflexivity].
    apply effects_formStep; [reflexivity | reflexivity |].
    apply noNewSubmission_same. reflexivity.
  - destruct (showAuthGate (app w)); apply Same; reflexivity.
  - destruct (showAuthGate (app w)); apply Same; reflexivity.
  - destruct (showAuthGate (app w)); apply Same; reflexivity.
  - destruct (showAuthGate (app w)); [destruct (mode (authScreen w)) |];
      apply Same; reflexivity.
  - destruct (showAuthGate (app w)); apply Same; reflexivity.
  - destruct (showAuthGate (app w)) eqn:G; [| apply Same; reflexivity].
    destruct (auth_loading (authScreen w)) eqn:Lo; cbn [andb negb];
      [apply Same; [reflexivity | exact Lo | reflexivity] |].
    destruct (canSubmit (authScreen w)) eqn:Can;
      [| unfold handleSubmit; rewrite Can;
         apply Same; [reflexivity | exact Lo | reflexivity]].
    right. right. left.
    rewrite (handleSubmit_sends w G Can). cbn.
    split; [reflexivity | split; [exact Lo | split; [reflexivity |]]].
    intros id req i H.
    apply lookup_insert_Some in H as [(<- & H) | (_ & H)]; [| auto].
    right. injection H as _ <-. auto.
  - destruct (inflight w !! id) as [[req [| | instance]] |] eqn:H;
      [| | | apply Same; reflexivity].
    + apply effects_formStep.
      * unfold afterMe. destruct (sessionValid r); reflexivity.
      * unfold afterMe. destruct (sessionValid r); reflexivity.
      * apply (noNewSubmission_trans _ _ _ (settle_form w id)).
        apply noNewSubmission_same. apply afterMe_network.
    + left. unfold afterNearby.
      destruct (nearbyVendors r); through_render;
        (split; [reflexivity | split; [reflexivity |]]);
        apply (noNewSubmission_trans _ _ _ (settle_form w id));
        apply noNewSubmission_same; reflexivity.
    + set (x := afterAuth instance r (settle id w)).
      assert (Up : showAuthGate (app x) && negb (showAuthGate (app w)) = false).
      { subst x. destruct (credentials r) as [e | [t u]] eqn:E.
        - destruct (afterAuth_thrown instance r e (settle id w) E)
            as (_ & _ & Kg & _).
          rewrite Kg. apply andb_negb_r.
        - rewrite (afterAuth_returned instance r t u _ E). reflexivity. }
      assert (I : authInstance x = authInstance w).
      { subst x. unfold afterAuth, auth_setLoading, auth_setError.
        destruct (credentials r) as [e | [t u]];
          repeat match goal with
                 | |- context [if ?c then _ else _] => destruct c
                 end; reflexivity. }
      assert (N : forall id' req' i,
                 inflight x !! id' = Some (req', AfterAuth i) ->
                 id' <> id /\ inflight w !! id' = Some (req', AfterAuth i)).
      { intros id' req' i F. subst x.
        destruct (afterAuth_network instance r (settle id w)) as (In & _).
        rewrite In in F. cbn in F. apply lookup_delete_Some in F as (Ne & F).
        split; [congruence | exact F]. }
      destruct (effects_form w x (returned (credentials r)) false) as (N' & I' & S').
      rewrite Up in I', S'.
      destruct (Nat.eqb_spec instance (authInstance w)) as [-> | Ne].
      * right. right. right. exists id, req. split; [exact H |].
        split; [rewrite I', I; reflexivity |].
        intros id' req' i F. exact (N _ _ _ (N' _ _ _ F)).
      * left. rewrite I', S', I. split; [reflexivity | split].
        -- subst x. unfold afterAuth, auth_setLoading, auth_setError, mounted.
           apply Nat.eqb_neq in Ne.
           destruct w as [a s i0 store flight n c]. cbn in *.
           destruct (credentials r) as [e | [t u]]; cbn;
             rewrite ?Ne, ?andb_false_r; cbn; rewrite ?Ne, ?andb_false_r;
             reflexivity.
        -- intros id' req' i F. exact (proj2 (N _ _ _ (N' _ _ _ F))).
Qed.

Lemma formStep_oneSubmission (w w' : World) :
  oneSubmission w -> formStep w w' -> oneSubmission w'.
Proof.
  intros (A & B & C) [(I & S & N) | [(I & N) | [(I & S & S' & N) | (id & req & H & I & N)]]];
    unfold oneSubmission; rewrite I.
  - split; [| split].
    + intros id req i F. exact (A _ _ _ (N _ _ _ F)).
    + intros id req F. rewrite S. exact (B _ _ (N _ _ _ F)).
    + intros id1 id2 req1 req2 F1 F2. exact (C _ _ _ _ (N _ _ _ F1) (N _ _ _ F2)).
  - split; [| split].
    + intros id req i F. pose proof (A _ _ _ (N _ _ _ F)). lia.
    + intros id req F. pose proof (A _ _ _ (N _ _ _ F)). lia.
    + intros id1 id2 req1 req2 F1 _. pose proof (A _ _ _ (N _ _ _ F1)). lia.
  - split; [| split].
    + intros id req i F. destruct (N _ _ _ F) as [F' | (_ & ->)];
        [exact (A _ _ _ F') | lia].
    + intros id req _. exact S'.
    + intros id1 id2 req1 req2 F1 F2.
      destruct (N _ _ _ F1) as [F1' | (-> & _)].
      * pose proof (B _ _ F1'). congruence.
      * destruct (N _ _ _ F2) as [F2' | (-> & _)]; [| reflexivity].
        pose proof (B _ _ F2'). congruence.
  - assert (None : forall id' req',
               inflight w' !! id' = Some (req', AfterAuth (authInstance w)) -> False).
    { intros id' req' F. destruct (N _ _ _ F) as (Ne & F').
      exact (Ne (C _ _ _ _ F' H)). }
    split; [| split].
    + intros id' req' i F. exact (A _ _ _ (proj2 (N _ _ _ F))).
    + intros id' req' F. destruct (None _ _ F).
    + intros id1 id2 req1 req2 F _. destruct (None _ _ F).
Qed.

Lemma boot_oneSubmission (store : gmap string string) : oneSubmission (boot store).
Proof.
  assert (N : forall id req i, inflight (boot store) !! id <> Some (req, AfterAuth i)).
  { intros id req i H.
    assert (F : inflight (restore (initialWorld store)) !! id = Some (req, AfterAuth i)).
    { unfold boot in H. destruct (crashed (restore (initialWorld store))); [exact H |].
      destruct (effects_form (initialWorld store) (restore (initialWorld store))
                  true false) as (M & _).
      exact (M _ _ _ H). }
    destruct (restore_network (initialWorld store)) as (I & _).
    rewrite I in F. cbn in F. rewrite lookup_empty in F. discriminate. }
  split; [| split].
  - intros id req i H. destruct (N _ _ _ H).
  - intros id req H. destruct (N _ _ _ H).
  - intros id1 id2 req1 req2 H _. destruct (N _ _ _ H).
Qed.

(** X16. A form has at most one submission in flight.  Along every run from
    the first render, while a login or register request of the form on
    screen is in flight the form is loading, so that submitting it again
    does nothing, and no other request of that form is in flight. *)
Theorem one_submission_in_flight
    (store : gmap string string) (events : list Event) (id : nat) (req : Request) :
  let w := run events (boot store) in
  inflight w !! id = Some (req, AfterAuth (authInstance w)) ->
  auth_loading (authScreen w) = true
  /\ step Submit w = w
  /\ (forall id' req',
        inflight w !! id' = Some (req', AfterAuth (authInstance w)) -> id' = id).
Proof.
  intros w H.
  assert (O : oneSubmission w).
  { subst w. apply run_invariant; [| apply boot_oneSubmission].
    intros e w0 O. exact (formStep_oneSubmission _ _ O (step_form e w0)). }
  destruct O as (_ & B & C). pose proof (B _ _ H) as Lo.
  split; [exact Lo | split].
  - unfold step. rewrite Lo, andb_false_r. destruct (is_some (crashed w)); reflexivity.
  - intros id' req' H'. exact (C _ _ _ _ H' H).
Qed.

(** X20. What was typed does not outlive the login gate.  When the gate is
    hidden (the user went on as guest) and no user is held, "Sign in" brings
    the gate up with a new form in its initial state: mode, phone, email,
    name, password and error of the earlier form are gone.  The session,
    the store and the requests in flight are as before. *)
Theorem sign_in_opens_an_empty_form (w : World) :
  live w ->
  truthy (user (app w)) = false ->
  showAuthGate (app w) = false ->
  let w' := step ClickSignIn w in
  showAuthGate (app w') = true
  /\ authScreen w' = initialAuthScreen
  /\ authInstance w' = S (authInstance w)
  /\ token (app w') = token (app w)
  /\ user (app w') = user (app w)
  /\ localStorage w' = localStorage w
  /\ inflight w' = inflight w
  /\ issued w' = issued w.
Proof.
  intros L U G w'. subst w'. unfold step. rewrite (live_step w L), U.
  unfold effects. change (showAuthGate (app (setShowAuthGate true w))) with true.
  rewrite G. cbn [andb negb orb].
  change (serviceType (app (mountAuthScreen (setShowAuthGate true w))))
    with (serviceType (app w)).
  rewrite String.eqb_refl. cbn. repeat split.
Qed.

(** X17. The form is submitted only with a password of at least six UTF-16
    units and a phone or an email.  Then one request goes to the endpoint
    of the mode with the serialised payload, the form is loading and its
    error is cleared; otherwise the submission changes nothing.  Either
    way the state of [App] and the store are as before. *)
Theorem submit_needs_password_and_contact (w : World) :
  live w ->
  showAuthGate (app w) = true ->
  auth_loading (authScreen w) = false ->
  let s := authScreen w in
  let w' := step Submit w in
  (canSubmit s = true
   <-> 6 <= length16 (password s) /\ (phone s <> "" \/ email s <> ""))
  /\ (canSubmit s = false -> w' = w)
  /\ (canSubmit s = true ->
      inflight w'
      = <[issued w := (POST_auth (backend ++ endpoint s) (JSON_stringify (payload s)),
                       AfterAuth (authInstance w))]> (inflight w)
      /\ issued w' = S (issued w)
      /\ auth_loading (authScreen w') = true
      /\ auth_error (authScreen w') = ""
      /\ app w' = app w
      /\ localStorage w' = localStorage w).
Proof.
  intros L G Lo s w'. subst s w'. unfold step. rewrite (live_step w L), G, Lo.
  cbn [andb negb]. split; [| split].
  - assert (T : forall x, truthy (JStr x) = true <-> x <> "").
    { intros x. cbn. rewrite negb_true_iff. apply String.eqb_neq. }
    pose proof (T (phone (authScreen w))) as Tp.
    pose proof (T (email (authScreen w))) as Te.
    unfold canSubmit, js_or. rewrite andb_true_iff, Nat.leb_le.
    destruct (truthy (JStr (phone (authScreen w)))) eqn:P; [rewrite P |];
      intuition congruence.
  - intros Can. unfold handleSubmit. rewrite Can. reflexivity.
  - intros Can. rewrite (handleSubmit_sends w G Can). cbn. repeat split.
Qed.

(** X18. A vendor query is sent for the state its transition leaves: every
    vendor query that a transition puts in flight goes to
    [/api/vendors/nearby] with the parameters of the position and of the
    category held after the transition. *)
Theorem query_carries_position_and_category
    (e : Event) (w : World) (id : nat) (req : Request) :
  inflight (step e w) !! id = Some (req, AfterNearby) ->
  inflight w !! id <> Some (req, AfterNearby) ->
  exists p,
    position (app (step e w)) = Some p
    /\ req = GET_nearby (backend ++ "/api/vendors/nearby")
                        (nearbyParams p (serviceType (app (step e w)))).
Proof.
  intros H Old.
  assert (New : forall (m : gmap nat (Request * Pending)) (l : list (Request * Pending)),
             Forall (lawful (step e w)) l ->
             sendAll l (issued w) m !! id = Some (req, AfterNearby) ->
             m !! id <> Some (req, AfterNearby) ->
             exists p,
               position (app (step e w)) = Some p
               /\ req = GET_nearby (backend ++ "/api/vendors/nearby")
                                   (nearbyParams p (serviceType (app (step e w))))).
  { intros m l F S N.
    destruct (sendAll_lookup _ _ _ _ _ S) as [M | (M & _)]; [contradiction |].
    rewrite Forall_forall in F. apply list_elem_of_In in M.
    destruct (F _ M) as [C | (p & P & E)].
    - destruct req; destruct C.
    - exists p. split; [exact P | congruence]. }
  destruct (step_network e w) as (l & F & [(I & _) | (id' & r & x & _ & _ & _ & I & _)]);
    rewrite I in H.
  - exact (New _ l F H Old).
  - apply (New _ l F H). cbn. intros D.
    apply lookup_delete_Some in D as (_ & D). exact (Old D).
Qed.

End Further.

(** ** The themed variant *)
Section FurtherThemed.

Context {platform : Platform}.

Variable inherited : string -> bool.

Lemma selectTheme_stored (k : string) (a : ThemedApp) :
  live (world a) -> In k themeKeys ->
  themeStored (selectTheme k a) /\ theme (selectTheme k a) = k.
Proof.
  intros L K.
  assert (E : existsb (String.eqb k) themeKeys = true).
  { apply List.existsb_exists. exists k. split; [exact K | apply String.eqb_refl]. }
  unfold selectTheme. unfold live in L. rewrite L, E. cbn [is_some].
  split; [split |]; [exact K | apply lookup_insert_eq | reflexivity].
Qed.

Lemma stepThemed_stored (e : ThemedEvent) (a : ThemedApp) :
  themeStored a ->
  themeStored (stepThemed e a) /\ (plain e -> theme (stepThemed e a) = theme a).
Proof.
  intros (K & S). destruct e as [e | k]; cbn [stepThemed plain].
  - split; [| reflexivity]. split; [exact K |].
    cbn [world theme]. rewrite step_store by discriminate. exact S.
  - split; [| contradiction]. unfold selectTheme.
    destruct (is_some (crashed (world a))); [split; assumption |].
    destruct (existsb (String.eqb k) themeKeys) eqn:E; [| split; assumption].
    apply List.existsb_exists in E as (k' & K' & E).
    apply String.eqb_eq in E. subst k'.
    split; [exact K' | apply lookup_insert_eq].
Qed.

Lemma runThemed_stored (events : list ThemedEvent) (a : ThemedApp) :
  themeStored a ->
  themeStored (runThemed events a)
  /\ (Forall plain events -> theme (runThemed events a) = theme a).
Proof.
  unfold runThemed. revert a.
  induction events as [| e events IH]; intros a S; cbn; [auto |].
  destruct (stepThemed_stored e a S) as (S' & P).
  destruct (IH _ S') as (S'' & P'). split; [exact S'' |].
  intros F. apply Forall_cons in F as (F1 & F2).
  rewrite (P' F2). exact (P F1).
Qed.

(** X19. In the themed variant a chosen theme survives a reload.  Once a
    theme button was pressed, whatever follows (the events of [App] and
    further theme buttons), the theme held is a theme and is the one
    stored, and it is the theme chosen first as long as no other theme
    button is pressed.  The first render over the store left behind
    starts with the theme held at the end, unless the user entry makes
    [JSON.parse] throw, which happens before the theme is read: then the
    theme is the initial "emerald". *)
Theorem theme_survives_reload
    (a : ThemedApp) (k : string) (events : list ThemedEvent) :
  live (world a) ->
  In k themeKeys ->
  let a' := runThemed events (selectTheme k a) in
  let store := localStorage (world a') in
  In (theme a') themeKeys
  /\ store !! "madad_theme" = Some (theme a')
  /\ (Forall plain events -> theme a' = k)
  /\ (live (restore (initialWorld store)) ->
      theme (bootThemed inherited store) = theme a')
  /\ (~ live (restore (initialWorld store)) ->
      theme (bootThemed inherited store) = "emerald").
Proof.
  intros L K a' store.
  destruct (selectTheme_stored k a L K) as (S0 & T0).
  destruct (runThemed_stored events _ S0) as ((K' & S) & P).
  fold a' in K', S, P. fold store in S.
  split; [exact K' | split; [exact S | split]].
  { intros F. rewrite (P F). exact T0. }
  unfold bootThemed, restoreThemed. cbn [world theme].
  destruct (restore_token (initialWorld store)) as (Rl & _).
  unfold live. split.
  - intros Li. rewrite Li. unfold getItem. rewrite Rl.
    change (localStorage (initialWorld store)) with store. rewrite S.
    assert (E : existsb (String.eqb (theme a')) themeKeys = true).
    { apply List.existsb_exists. exists (theme a').
      split; [exact K' | apply String.eqb_refl]. }
    unfold themed. rewrite E. cbn [orb].
    assert (T : truthy (JStr (theme a')) = true).
    { clear - K'. cbn in K'.
      repeat (destruct K' as [<- | K']; [reflexivity |]). contradiction. }
    rewrite T. reflexivity.
  - intros Li. destruct (crashed (restore (initialWorld store))); [reflexivity |].
    destruct (Li eq_refl).
Qed.

End FurtherThemed.

(** ** The claims on concrete runs *)

(** C1 as stated fails.  Query 0 (all categories) is issued before query 1
    (medical).  The answer to query 1 arrives first and is displayed; the
    answer to query 0 arrives afterwards and is not discarded: it replaces
    the medical vendors, under the "Medical" filter.  Every vendor has its
    location, and the tree is mounted throughout. *)
Lemma stale_fetch_overwrites :
  let w := Browser.twoQueries in
  let w1 := step (Settle 1 (Browser.answer 200
                            (JObj [("vendors", Browser.medicalVendors)]))) w in
  let w2 := step (Settle 0 (Browser.answer 200
                            (JObj [("vendors", Browser.allVendors)]))) w1 in
  inflight w !! 0 = Some (Browser.queryAll, AfterNearby)
  /\ inflight w !! 1 = Some (Browser.queryMedical, AfterNearby)
  /\ vendors (app w1) = Browser.medicalVendors
  /\ markers (vendors (app w1)) = inr [JStr "v2"]
  /\ crashed w1 = None
  /\ serviceType (app w2) = "medical"
  /\ vendors (app w2) = Browser.allVendors
  /\ markers (vendors (app w2)) = inr [JStr "v1"; JStr "v2"; JStr "v3"]
  /\ crashed w2 = None
  /\ vendors (app w2) <> vendors (app w1).
Proof.
  vm_compute. repeat split; try reflexivity. discriminate.
Qed.

Lemma last_settled_fetch_wins_witness :
  let w := Browser.twoQueries in
  let w1 := step (Settle 1 (Browser.answer 200
                            (JObj [("vendors", Browser.medicalVendors)]))) w in
  let w2 := step (Settle 0 (Browser.answer 200
                            (JObj [("vendors", Browser.allVendors)]))) w1 in
  (vendors (app w1) = Browser.medicalVendors /\ live w1)
  /\ (vendors (app w2) = Browser.allVendors /\ live w2).
Proof.
  apply (last_settled_fetch_wins
           Browser.twoQueries 0 1 Browser.queryAll Browser.queryMedical
           (Browser.answer 200 (JObj [("vendors", Browser.allVendors)]))
           (Browser.answer 200 (JObj [("vendors", Browser.medicalVendors)]))
           Browser.allVendors Browser.medicalVendors
           [JStr "v1"; JStr "v2"; JStr "v3"] [JStr "v2"]).
  - vm_compute. reflexivity.
  - lia.
  - vm_compute. reflexivity.
  - vm_compute. reflexivity.
  - vm_compute. reflexivity.
  - vm_compute. reflexivity.
  - vm_compute. reflexivity.
  - vm_compute. reflexivity.
Defined.

(** C2 as stated fails.  On a first visit no position is known; with the
    "Medical" chip chosen, the refresh button sends no query at all: no
    request is in flight and none was ever issued. *)
Lemma refresh_without_position_sends_nothing :
  let w := run [SelectCategory "medical"; ClickRefresh] Browser.firstVisit in
  position (app w) = None
  /\ serviceType (app w) = "medical"
  /\ inflight w = ∅
  /\ issued w = 0.
Proof. vm_compute. repeat split; reflexivity. Qed.

Lemma refresh_needs_position_witness :
  (position (app Browser.firstVisit) = None ->
   step ClickRefresh Browser.firstVisit = Browser.firstVisit
   /\ center Browser.firstVisit = (24.8607%float, 67.0011%float))
  /\ (forall p, position (app Browser.firstVisit) = Some p ->
       let w' := step ClickRefresh Browser.firstVisit in
       inflight w' !! issued Browser.firstVisit
       = Some (GET_nearby (backend ++ "/api/vendors/nearby")
                 (nearbyParams p
                    (serviceType (app Browser.firstVisit))), AfterNearby)
       /\ issued w' = S (issued Browser.firstVisit)
       /\ center Browser.firstVisit = p)
  /\ (forall p,
       nearbyParams p "medical"
       = [("lat", Number_toString (fst p));
          ("lng", Number_toString (snd p));
          ("radius_km", "5"); ("service_type", "medical")]).
Proof.
  apply (refresh_needs_position Browser.firstVisit).
  vm_compute. reflexivity.
Defined.

(** C3 on a concrete store: a user entry that is not JSON. *)
Lemma restore_throws_on_malformed_user_witness :
  let store := <["madad_user" := "{oops"]> (<["madad_token" := "T1"]> ∅) in
  crashed (boot store) = Some (SyntaxError "Unexpected token in JSON")
  /\ user (app (boot store)) = JNull
  /\ showAuthGate (app (boot store)) = showAuthGate initialApp
  /\ crashed (boot (delete "madad_user" store)) = None.
Proof.
  apply (restore_throws_on_malformed_user
           (<["madad_user" := "{oops"]> (<["madad_token" := "T1"]> ∅)) "{oops").
  - vm_compute. reflexivity.
  - discriminate.
  - vm_compute. reflexivity.
Defined.

(** The program writes such an entry itself: a login answered by an ok
    response without [user] stores [JSON.stringify(undefined)], that is
    the text "undefined", and the next page load throws on it. *)
Example login_without_user_breaks_reload :
  let w := step (Settle 0 (Browser.answer 200
                           (JObj [("access_token", JStr "T1")]))) Browser.submitted in
  localStorage w !! "madad_token" = Some "T1"
  /\ localStorage w !! "madad_user" = Some "undefined"
  /\ crashed w = None
  /\ crashed (boot (localStorage w))
     = Some (SyntaxError "Unexpected token in JSON").
Proof. vm_compute. repeat split; reflexivity. Qed.

(** C4 on a stored session whose verification is answered 401 with a body
    that is not JSON. *)
Lemma verify_failure_forces_logout_witness :
  let w := boot Browser.session in
  let r := Responded {| status := 401; body := Malformed "Unexpected token" |} in
  let w' := step (Settle 0 r) w in
  token (app w) = JStr "T1"
  /\ localStorage w !! "madad_token" = Some "T1"
  /\ loggedOut w'
  /\ inflight w' !! 0 = None.
Proof.
  split; [vm_compute; reflexivity | split; [vm_compute; reflexivity |]].
  destruct (verify_failure_forces_logout
              (boot Browser.session) 0 (GET_me "/api/auth/me" "Bearer T1")
              (Responded {| status := 401; body := Malformed "Unexpected token" |}))
    as (F & I & _).
  - vm_compute. reflexivity.
  - vm_compute. reflexivity.
  - split; [apply F; vm_compute; reflexivity | exact I].
Defined.

(** C5 on query 1 of two in flight, answered 500. *)
Lemma fetch_failure_keeps_vendors_witness :
  let w := Browser.twoQueries in
  let w' := step (Settle 1 (Browser.answer 500 JNull)) w in
  vendors (app w') = vendors (app w)
  /\ error (app w') = "Could not load nearby vendors"
  /\ (forall p, position (app w') = Some p ->
       error (app (fetchNearby w')) = "")
  /\ issued w' = issued w
  /\ inflight w' = delete 1 (inflight w)
  /\ token (app w') = token (app w)
  /\ user (app w') = user (app w)
  /\ showAuthGate (app w') = showAuthGate (app w)
  /\ position (app w') = position (app w)
  /\ localStorage w' = localStorage w
  /\ live w'.
Proof.
  apply (fetch_failure_keeps_vendors Browser.twoQueries 1 Browser.queryMedical).
  - vm_compute. reflexivity.
  - vm_compute. reflexivity.
  - vm_compute. reflexivity.
Defined.



(** C7 on a login answered 200 with a token and a user. *)
Lemma auth_success_sets_session_witness :
  let data := JObj [("access_token", JStr "T1"); ("user", Browser.profile)] in
  let w := Browser.submitted in
  let w' := step (Settle 0 (Browser.answer 200 data)) w in
  token (app w') = JStr "T1"
  /\ user (app w') = Browser.profile
  /\ showAuthGate (app w') = false
  /\ localStorage w' !! "madad_token" = Some "T1"
  /\ localStorage w' !! "madad_user"
     = Some ("{" ++ Engine.dq "id" ++ ":7," ++ Engine.dq "name" ++ ":"
             ++ Engine.dq "Ali" ++ "}")
  /\ (forall k, k <> "madad_token" -> k <> "madad_user" ->
                localStorage w' !! k = localStorage w !! k)
  /\ ("T1" <> "" -> truthy (token (app w')) = true)
  /\ live w'.
Proof.
  apply (auth_success_sets_session Browser.submitted 0 0 Browser.loginRequest
           {| status := 200;
              body := Parsed (JObj [("access_token", JStr "T1");
                                    ("user", Browser.profile)]) |}
           (JObj [("access_token", JStr "T1"); ("user", Browser.profile)])
           Browser.profile "T1").
  - vm_compute. reflexivity.
  - vm_compute. reflexivity.
  - vm_compute. reflexivity.
  - reflexivity.
  - reflexivity.
  - reflexivity.
  - vm_compute. reflexivity.
Defined.


(** C10 on a query answered 200 with an empty object. *)
Lemma missing_vendors_shows_none_witness :
  let w := step (Settle 0 (Browser.answer 200
                           (JObj [("vendors", Browser.allVendors)])))
                        Browser.twoQueries in
  let w' := step (Settle 1 (Browser.answer 200 (JObj []))) w in
  vendors (app w) = Browser.allVendors
  /\ vendors (app w') = JArr []
  /\ error (app w') = error (app w)
  /\ nearbyVendors (Browser.answer 200 (JObj []))
     = inr (JArr [])
  /\ live w'.
Proof.
  split; [vm_compute; reflexivity |].
  apply (missing_vendors_shows_none (step (Settle 0 (Browser.answer 200
                            (JObj [("vendors", Browser.allVendors)])))
                         Browser.twoQueries)
           1 Browser.queryMedical
           {| status := 200; body := Parsed (JObj []) |} (JObj []) JUndefined).
  - vm_compute. reflexivity.
  - vm_compute. reflexivity.
  - vm_compute. reflexivity.
  - reflexivity.
  - reflexivity.
  - left. reflexivity.
Defined.

(** ** The further properties on concrete runs *)

(** X2 on a stored session whose verification is rejected. *)
Lemma session_entries_go_together_witness :
  paired (localStorage (run [Settle 0 (Rejected "Failed to fetch")]
                            (boot Browser.session))).
Proof.
  apply (session_entries_go_together (boot Browser.session)).
  split; intros _.
  - exists ("{" ++ Engine.dq "id" ++ ":7}"). vm_compute. reflexivity.
  - exists "T1". vm_compute. reflexivity.
Defined.

(** X4: a denied request for the position after a fix. *)
Lemma position_is_never_lost_witness :
  exists q,
    position (app (run [GeoDenied; SelectCategory "hotel"]
                       (run [GeoFix 24.8607 67.0011] Browser.firstVisit)))
    = Some q.
Proof.
  apply (position_is_never_lost
           (run [GeoFix 24.8607 67.0011] Browser.firstVisit)
           (24.8607%float, 67.0011%float)).
  vm_compute. reflexivity.
Defined.

(** X5 on a first visit on which the position is denied. *)
Lemma nothing_asked_without_position_witness :
  let w := run [SelectCategory "medical"; ClickRefresh; GeoDenied] (boot ∅) in
  vendors (app w) = JArr [] /\ noQuery w.
Proof.
  apply (nothing_asked_without_position
           ∅ [SelectCategory "medical"; ClickRefresh; GeoDenied]).
  vm_compute. reflexivity.
Defined.

(** X6: an entry of another program outlives a forced logout. *)
Lemma other_entries_are_untouched_witness :
  let w := boot (<["lang" := "ur"]> Browser.session) in
  localStorage (run [Settle 0 (Rejected "Failed to fetch")] w) !! "lang"
  = localStorage w !! "lang".
Proof.
  apply (other_entries_are_untouched
           (boot (<["lang" := "ur"]> Browser.session))
           [Settle 0 (Rejected "Failed to fetch")] "lang");
    discriminate.
Defined.

(** X8 on query 1 of two in flight, answered 200. *)
Lemma vendor_answer_ends_loading_witness :
  let w := Browser.twoQueries in
  let w' := step (Settle 1 (Browser.answer 200
                            (JObj [("vendors", Browser.medicalVendors)]))) w in
  loading (app w) = true /\ live w' /\ loading (app w') = false.
Proof.
  split; [vm_compute; reflexivity |].
  destruct (vendor_answer_ends_loading
              Browser.twoQueries 1 Browser.queryMedical
              (Browser.answer 200 (JObj [("vendors", Browser.medicalVendors)])))
    as (_ & _ & _ & _ & F).
  - vm_compute. reflexivity.
  - vm_compute. reflexivity.
  - assert (L : live (step (Settle 1 (Browser.answer 200
                                       (JObj [("vendors", Browser.medicalVendors)])))
                           Browser.twoQueries))
      by (vm_compute; reflexivity).
    split; [exact L | apply F, L].
Defined.

(** X9 on an answer whose [vendors] is a string. *)
Lemma vendors_of_another_type_break_the_render_witness :
  let w' := step (Settle 1 (Browser.answer 200 (JObj [("vendors", JStr "none")])))
                 Browser.twoQueries in
  vendors (app w') = JStr "none"
  /\ error (app w') = error (app Browser.twoQueries)
  /\ (exists m, mapped (vendors (app w')) = inl (TypeError m))
  /\ (exists m, crashed w' = Some (TypeError m)).
Proof.
  apply (vendors_of_another_type_break_the_render
           Browser.twoQueries 1 Browser.queryMedical
           {| status := 200; body := Parsed (JObj [("vendors", JStr "none")]) |}
           (JObj [("vendors", JStr "none")]) (JStr "none")).
  - vm_compute. reflexivity.
  - vm_compute. reflexivity.
  - vm_compute. reflexivity.
  - reflexivity.
  - reflexivity.
  - reflexivity.
  - intros items. discriminate.
Defined.

(** X10 on a restored session. *)
Lemma logout_ends_the_session_witness :
  let w := boot Browser.session in
  let w' := step ClickLogout w in
  loggedOut w'
  /\ inflight w' = inflight w
  /\ authScreen w' = initialAuthScreen
  /\ authInstance w' = 1.
Proof.
  destruct (logout_ends_the_session (boot Browser.session))
    as (O & I & _ & _ & _ & _ & F & _).
  - vm_compute. reflexivity.
  - vm_compute. reflexivity.
  - split; [exact O | split; [exact I |]].
    apply F. vm_compute. reflexivity.
Defined.

(** X11: the user went on as guest while the login was in flight, and the
    login is answered 401. *)
Lemma late_failure_is_dropped_witness :
  let w := step ClickGuest Browser.submitted in
  step (Settle 0 (Browser.answer 401
                    (JObj [("detail", JStr "Invalid credentials")]))) w
  = settle 0 w.
Proof.
  apply (late_failure_is_dropped
           (step ClickGuest Browser.submitted) 0 0 Browser.loginRequest
           (Browser.answer 401 (JObj [("detail", JStr "Invalid credentials")]))
           (Error "Invalid credentials")).
  - vm_compute. reflexivity.
  - vm_compute. reflexivity.
  - vm_compute. reflexivity.
  - vm_compute. reflexivity.
Defined.

(** X12 on a login answered 200 with a token and a user. *)
Lemma login_starts_verification_witness :
  let data := JObj [("access_token", JStr "T1"); ("user", Browser.profile)] in
  let w' := step (Settle 0 (Browser.answer 200 data)) Browser.submitted in
  inflight w'
  = <[1 := (GET_me "/api/auth/me" "Bearer T1", AfterMe)]>
      (delete 0 (inflight Browser.submitted))
  /\ issued w' = 2.
Proof.
  destruct (login_starts_verification
              Browser.submitted 0 0 Browser.loginRequest
              (Browser.answer 200
                 (JObj [("access_token", JStr "T1"); ("user", Browser.profile)]))
              (JStr "T1") Browser.profile)
    as (V & _).
  - vm_compute. reflexivity.
  - vm_compute. reflexivity.
  - vm_compute. reflexivity.
  - apply V; vm_compute; reflexivity.
Defined.

(** X13 on a stored token and user record. *)
Lemma stored_session_is_restored_witness :
  let w := boot Browser.session in
  token (app w) = JStr "T1"
  /\ user (app w) = JObj [("id", JNum 7)]
  /\ showAuthGate (app w) = false
  /\ inflight w = {[0 := (GET_me (backend ++ "/api/auth/me") ("Bearer " ++ "T1"), AfterMe)]}
  /\ issued w = 1
  /\ localStorage w = Browser.session
  /\ live w.
Proof.
  apply (stored_session_is_restored
           Browser.session "T1" ("{" ++ Engine.dq "id" ++ ":7}") (JObj [("id", JNum 7)])).
  - vm_compute. reflexivity.
  - discriminate.
  - vm_compute. reflexivity.
  - discriminate.
  - vm_compute. reflexivity.
Defined.

(** X14 on a first visit. *)
Lemma no_token_shows_the_gate_witness :
  token (app Browser.firstVisit) = JNull
  /\ inflight Browser.firstVisit = ∅
  /\ issued Browser.firstVisit = 0
  /\ showAuthGate (app Browser.firstVisit) = true
  /\ authScreen Browser.firstVisit = initialAuthScreen.
Proof.
  destruct (no_token_shows_the_gate ∅) as (T & I & N & _ & _ & G).
  - left. vm_compute. reflexivity.
  - split; [exact T | split; [exact I | split; [exact N |]]].
    apply G. vm_compute. reflexivity.
Defined.

(** X15 on a login answered 200 with a token and a user. *)
Lemma login_survives_reload_witness :
  let data := JObj [("access_token", JStr "T1"); ("user", Browser.profile)] in
  let reloaded :=
    boot (localStorage (step (Settle 0 (Browser.answer 200 data)) Browser.submitted)) in
  token (app reloaded) = JStr "T1"
  /\ user (app reloaded) = Browser.profile
  /\ showAuthGate (app reloaded) = false
  /\ inflight reloaded
     = {[0 := (GET_me (backend ++ "/api/auth/me") ("Bearer " ++ "T1"), AfterMe)]}
  /\ live reloaded.
Proof.
  apply (login_survives_reload
           Browser.submitted 0 0 Browser.loginRequest
           (Browser.answer 200
              (JObj [("access_token", JStr "T1"); ("user", Browser.profile)]))
           "T1"
           ("{" ++ Engine.dq "id" ++ ":7," ++ Engine.dq "name" ++ ":"
            ++ Engine.dq "Ali" ++ "}")
           Browser.profile Browser.profile).
  - vm_compute. reflexivity.
  - vm_compute. reflexivity.
  - vm_compute. reflexivity.
  - discriminate.
  - vm_compute. reflexivity.
  - discriminate.
  - vm_compute. reflexivity.
Defined.

(** X16 on the form filled in and submitted on a first visit. *)
Lemma one_submission_in_flight_witness :
  let w := run [TypePhone "03001234567"; TypePassword "secret1"; Submit] (boot ∅) in
  auth_loading (authScreen w) = true
  /\ step Submit w = w
  /\ (forall id' req',
        inflight w !! id' = Some (req', AfterAuth (authInstance w)) -> id' = 0).
Proof.
  apply (one_submission_in_flight
           ∅ [TypePhone "03001234567"; TypePassword "secret1"; Submit]
           0 Browser.loginRequest).
  vm_compute. reflexivity.
Defined.

(** X17 on the form filled in on a first visit. *)
Lemma submit_needs_password_and_contact_witness :
  let w := run [TypePhone "03001234567"; TypePassword "secret1"] Browser.firstVisit in
  canSubmit (authScreen w) = true
  /\ inflight (step Submit w) !! 0 = Some (Browser.loginRequest, AfterAuth 0).
Proof.
  destruct (submit_needs_password_and_contact
              (run [TypePhone "03001234567"; TypePassword "secret1"] Browser.firstVisit))
    as (_ & _ & S).
  - vm_compute. reflexivity.
  - vm_compute. reflexivity.
  - vm_compute. reflexivity.
  - split; [vm_compute; reflexivity |].
    destruct S as (I & _); [vm_compute; reflexivity |].
    rewrite I. vm_compute. reflexivity.
Defined.

(** X18 on a first visit when the fix arrives. *)
Lemma query_carries_position_and_category_witness :
  let w' := step (GeoFix 24.8607 67.0011) Browser.firstVisit in
  exists p,
    position (app w') = Some p
    /\ Browser.queryAll
       = GET_nearby (backend ++ "/api/vendors/nearby")
                    (nearbyParams p (serviceType (app w'))).
Proof.
  apply (query_carries_position_and_category
           (GeoFix 24.8607 67.0011) Browser.firstVisit 0 Browser.queryAll).
  - vm_compute. reflexivity.
  - vm_compute. discriminate.
Defined.

(** X19: the "sky" button on a first visit, a denied position, the "lime"
    button, and the category "hotel". *)
Lemma theme_survives_reload_witness :
  let a' :=
    runThemed [Plain GeoDenied; ClickTheme "lime"; Plain (SelectCategory "hotel")]
      (selectTheme "sky" {| world := Browser.firstVisit; theme := "emerald" |}) in
  let store := localStorage (world a') in
  theme a' = "lime"
  /\ store !! "madad_theme" = Some (theme a')
  /\ theme (bootThemed (fun _ => false) store) = theme a'.
Proof.
  destruct (theme_survives_reload (fun _ => false)
              {| world := Browser.firstVisit; theme := "emerald" |} "sky"
              [Plain GeoDenied; ClickTheme "lime"; Plain (SelectCategory "hotel")])
    as (_ & S & _ & R & _).
  - vm_compute. reflexivity.
  - vm_compute. auto.
  - split; [vm_compute; reflexivity | split; [exact S |]].
    apply R. vm_compute. reflexivity.
Defined.

(** X20: a password typed, then on as guest, then "Sign in". *)
Lemma sign_in_opens_an_empty_form_witness :
  let w := run [TypePassword "secret1"; ClickGuest] Browser.firstVisit in
  password (authScreen w) = "secret1"
  /\ authScreen (step ClickSignIn w) = initialAuthScreen.
Proof.
  split; [vm_compute; reflexivity |].
  apply (sign_in_opens_an_empty_form
           (run [TypePassword "secret1"; ClickGuest] Browser.firstVisit)).
  - vm_compute. reflexivity.
  - vm_compute. reflexivity.
  - vm_compute. reflexivity.
Defined.
